(** * Platform price comparison of quick-price-checker

    A shallow embedding of the cart total ([getCartTotal], ShopProvider),
    of the cart line price lookup ([getPriceInfo], CartItem.tsx) and of the
    platform ranking ([getUnavailableItems], [areAllItemsAvailable],
    [sortedPlatforms], [bestPlatform], PriceComparison.tsx), followed by the
    properties of the ranking.

    Conventions of the embedding.
    - A JavaScript [number] holding an amount or a quantity is a [Z]:
      amounts are whole currency units, on which [+], [*] and [-] of
      JavaScript are exact (below 2^53).
    - A [Platform] is the string naming it.  A value of type
      [Platform | null | undefined] is an [option Platform]; [null] and
      [undefined] are both [None] (the code only tests such values for
      truthiness and compares them with [===] against a present platform).
    - Arrays are lists; the array methods [find], [filter], [every],
      [reduce] and [map] are [List.find], [List.filter], [forallb],
      [fold_left] and [map].  Where it matters which array is written, the
      arrays are kept in a store (a [gmap] of stdpp) and passed by
      reference. *)

From Stdlib Require Import ZArith List Bool String Lia Sorted Permutation.
From stdpp Require Import gmap strings.
Import ListNotations.

Local Open Scope Z_scope.

(** ** Data model *)

Definition Platform := string.

(** One (platform, price, availability) tuple of a product. *)
Module PriceInfo.
Record t := mk { platform : Platform; price : Z; available : bool }.
End PriceInfo.

Module Product.
Record t := mk { id : string; name : string; prices : list PriceInfo.t }.
End Product.

(** A cart line: [platform] is the optional pinned platform. *)
Module CartItem.
Record t := mk { product : Product.t; quantity : Z; platform : option Platform }.
End CartItem.

(** An element of the [platforms] catalog of the shop context; [id] and
    [name] are the fields the comparison reads. *)
Module PlatformInfo.
Record t := mk { id : Platform; name : string }.
End PlatformInfo.

(** The object built by the [map] callback of [sortedPlatforms]:
    [{...platform, unavailableItems, available, total}]. *)
Module PlatformResult.
Record t := mk {
  id : Platform;
  name : string;
  unavailableItems : list CartItem.t;
  available : bool;
  total : Z
}.
End PlatformResult.

(** ** JavaScript operators on optional platforms *)

(** Truthiness: [undefined], [null] and the empty string are falsy. *)
Definition truthy (v : option Platform) : bool :=
  match v with
  | Some s => negb (s =? "")%string
  | None => false
  end.

(** [a || b] *)
Definition js_or (a b : option Platform) : option Platform :=
  if truthy a then a else b.

(** [a === b] *)
Definition strict_eq (a b : option Platform) : bool :=
  match a, b with
  | Some s, Some t => (s =? t)%string
  | None, None => true
  | _, _ => false
  end.

(** [prices.find(p => p.platform === target)] *)
Definition findPrice (target : option Platform) (prices : list PriceInfo.t)
  : option PriceInfo.t :=
  List.find (fun p => strict_eq (Some (PriceInfo.platform p)) target) prices.

(** ** ShopProvider: [getCartTotal] *)

(** The tuple [getCartTotal] reads for a line:
    [item.product.prices.find(p => p.platform === (item.platform || selectedPlatform))]. *)
Definition cartPriceInfo (selectedPlatform : option Platform) (item : CartItem.t)
  : option PriceInfo.t :=
  findPrice (js_or (CartItem.platform item) selectedPlatform)
            (Product.prices (CartItem.product item)).

(** The callback of [cart.reduce]. *)
Definition addItem (selectedPlatform platform : option Platform)
  (total : Z) (item : CartItem.t) : Z :=
  if truthy platform && negb (strict_eq (CartItem.platform item) platform)
  then total
  else
    match cartPriceInfo selectedPlatform item with
    | Some priceInfo =>
        if PriceInfo.available priceInfo
        then total + PriceInfo.price priceInfo * CartItem.quantity item
        else total
    | None => total
    end.

Definition getCartTotal (cart : list CartItem.t)
  (selectedPlatform platform : option Platform) : Z :=
  fold_left (addItem selectedPlatform platform) cart 0.

(** ** CartItem.tsx: [getPriceInfo] *)

Definition getPriceInfo (item : CartItem.t) (platformFilter : option Platform)
  : option PriceInfo.t :=
  let targetPlatform := js_or platformFilter (CartItem.platform item) in
  if negb (truthy targetPlatform) then None
  else findPrice targetPlatform (Product.prices (CartItem.product item)).

(** ** PriceComparison.tsx *)

(** [!priceInfo || !priceInfo.available] *)
Definition lacksAvailablePrice (platform : Platform) (item : CartItem.t) : bool :=
  match findPrice (Some platform) (Product.prices (CartItem.product item)) with
  | Some priceInfo => negb (PriceInfo.available priceInfo)
  | None => true
  end.

(** [priceInfo && priceInfo.available], as [every] reads it. *)
Definition hasAvailablePrice (platform : Platform) (item : CartItem.t) : bool :=
  match findPrice (Some platform) (Product.prices (CartItem.product item)) with
  | Some priceInfo => PriceInfo.available priceInfo
  | None => false
  end.

Definition getUnavailableItems (cart : list CartItem.t) (platform : Platform)
  : list CartItem.t :=
  List.filter (lacksAvailablePrice platform) cart.

Definition areAllItemsAvailable (cart : list CartItem.t) (platform : Platform) : bool :=
  forallb (hasAvailablePrice platform) cart.

(** The [map] callback of [sortedPlatforms]. *)
Definition evaluatePlatform (cart : list CartItem.t)
  (selectedPlatform : option Platform) (platform : PlatformInfo.t)
  : PlatformResult.t :=
  {| PlatformResult.id := PlatformInfo.id platform;
     PlatformResult.name := PlatformInfo.name platform;
     PlatformResult.unavailableItems :=
       getUnavailableItems cart (PlatformInfo.id platform);
     PlatformResult.available :=
       areAllItemsAvailable cart (PlatformInfo.id platform);
     PlatformResult.total :=
       if areAllItemsAvailable cart (PlatformInfo.id platform)
       then getCartTotal cart selectedPlatform (Some (PlatformInfo.id platform))
       else -1 |}.

(** The comparator handed to [sort]. *)
Definition compareResults (a b : PlatformResult.t) : Z :=
  if PlatformResult.available a && negb (PlatformResult.available b) then -1
  else if negb (PlatformResult.available a) && PlatformResult.available b then 1
  else PlatformResult.total a - PlatformResult.total b.

(** [Array.prototype.sort] with a comparator.  ECMAScript (2019 on) makes
    the sort stable, and for a consistent comparator its result is the one
    stable sorted arrangement of the array ([arraySort_is_the_stable_sort]
    below); insertion from the right computes that arrangement: an element
    goes in front of the first element it does not compare greater than. *)
Section Sort.
Context {A : Type} (cmp : A -> A -> Z).

Fixpoint insertSorted (x : A) (l : list A) : list A :=
  match l with
  | [] => [x]
  | y :: l' => if cmp x y <=? 0 then x :: y :: l' else y :: insertSorted x l'
  end.

Definition arraySort (l : list A) : list A :=
  fold_right insertSorted [] l.

End Sort.

Definition sortedPlatforms (cart : list CartItem.t)
  (selectedPlatform : option Platform) (platforms : list PlatformInfo.t)
  : list PlatformResult.t :=
  arraySort compareResults (map (evaluatePlatform cart selectedPlatform) platforms).

(** [sortedPlatforms.find(p => p.available)]; [undefined] is [None]. *)
Definition bestPlatform (cart : list CartItem.t)
  (selectedPlatform : option Platform) (platforms : list PlatformInfo.t)
  : option PlatformResult.t :=
  List.find PlatformResult.available (sortedPlatforms cart selectedPlatform platforms).

(** ** The memo cell of [React.useMemo]

    [sortedPlatforms] is computed under [React.useMemo(..., [platforms, cart])]:
    a render whose two dependencies are the arrays of the previous render
    gets the value cached by that render, any other render runs the
    computation with the [getCartTotal] (hence the [selectedPlatform]) of
    its own closure and caches the result.  Identity of arrays is not
    visible on lists, so a render may take the cached value only when the
    cached dependencies are the lists it is given. *)

Module MemoCell.
Record t := mk {
  platforms : list PlatformInfo.t;
  cart : list CartItem.t;
  value : list PlatformResult.t
}.
End MemoCell.

(** What one render of PriceComparison reads. *)
Module Render.
Record t := mk {
  selectedPlatform : option Platform;
  platforms : list PlatformInfo.t;
  cart : list CartItem.t
}.
End Render.

Inductive useMemo : option MemoCell.t -> Render.t ->
                    list PlatformResult.t -> option MemoCell.t -> Prop :=
| useMemo_cached : forall cell r,
    MemoCell.platforms cell = Render.platforms r ->
    MemoCell.cart cell = Render.cart r ->
    useMemo (Some cell) r (MemoCell.value cell) (Some cell)
| useMemo_compute : forall old r,
    let v := sortedPlatforms (Render.cart r) (Render.selectedPlatform r)
                             (Render.platforms r) in
    useMemo old r v
      (Some (MemoCell.mk (Render.platforms r) (Render.cart r) v)).

(** A component instance rendered over and over, from its mount on. *)
Inductive renders : option MemoCell.t -> list Render.t ->
                    list (list PlatformResult.t) -> option MemoCell.t -> Prop :=
| renders_nil : forall cell, renders cell [] [] cell
| renders_cons : forall cell r v cell' rs vs cell'',
    useMemo cell r v cell' ->
    renders cell' rs vs cell'' ->
    renders cell (r :: rs) (v :: vs) cell''.

(** Platform identities are the names of the catalog; none is the empty
    string, which JavaScript would read as no platform. *)
Definition namedPlatforms (platforms : list PlatformInfo.t) : Prop :=
  Forall (fun p => PlatformInfo.id p <> ""%string) platforms.

(** ** Arrays in a store

    [Array.prototype.sort] sorts in place and returns the array it was
    called on, while [map] and [filter] return a new array.  To say which
    arrays the computation writes, the arrays live in a store and are passed
    by reference.  Only arrays are written by this code (no field of any
    object is assigned), so array elements stay values; the one reference
    inside an object is the [unavailableItems] array of a result. *)

Definition loc := positive.

Module ResultObj.
Record t := mk {
  id : Platform;
  name : string;
  unavailableItems : loc;
  available : bool;
  total : Z
}.
End ResultObj.

Inductive Arr :=
| CartArr (items : list CartItem.t)
| PlatformArr (platforms : list PlatformInfo.t)
| ResultArr (results : list ResultObj.t).

(** A computation on the store; [None] is a reference that does not hold
    an array of the expected kind. *)
Definition M (A : Type) : Type := gmap loc Arr -> option (A * gmap loc Arr).

Definition ret {A} (a : A) : M A := fun st => Some (a, st).

Definition bind {A B} (m : M A) (k : A -> M B) : M B :=
  fun st => match m st with
            | Some (a, st') => k a st'
            | None => None
            end.

Notation "'let*' x ':=' m 'in' k" := (bind m (fun x => k))
  (at level 10, x name, m at level 100, k at level 200).

Definition alloc (a : Arr) : M loc :=
  fun st => let l := fresh (dom st) in Some (l, <[l := a]> st).

Definition readCart (l : loc) : M (list CartItem.t) :=
  fun st => match st !! l with
            | Some (CartArr items) => Some (items, st)
            | _ => None
            end.

Definition readPlatforms (l : loc) : M (list PlatformInfo.t) :=
  fun st => match st !! l with
            | Some (PlatformArr ps) => Some (ps, st)
            | _ => None
            end.

Definition readResults (l : loc) : M (list ResultObj.t) :=
  fun st => match st !! l with
            | Some (ResultArr rs) => Some (rs, st)
            | _ => None
            end.

Definition writeResults (l : loc) (rs : list ResultObj.t) : M unit :=
  fun st => Some (tt, <[l := ResultArr rs]> st).

(** Running a callback over the elements, left to right. *)
Fixpoint forEachM {A B} (f : A -> M B) (l : list A) : M (list B) :=
  match l with
  | [] => ret []
  | x :: l' => let* y := f x in let* ys := forEachM f l' in ret (y :: ys)
  end.

(** [cart.filter(f)]: a new array. *)
Definition cartFilter (cart : loc) (f : CartItem.t -> bool) : M loc :=
  let* items := readCart cart in alloc (CartArr (List.filter f items)).

(** [cart.every(f)] *)
Definition cartEvery (cart : loc) (f : CartItem.t -> bool) : M bool :=
  let* items := readCart cart in ret (forallb f items).

(** [cart.reduce(f, init)] *)
Definition cartReduce (cart : loc) (f : Z -> CartItem.t -> Z) (init : Z) : M Z :=
  let* items := readCart cart in ret (fold_left f items init).

(** [platforms.map(f)]: a new array. *)
Definition platformsMap (platforms : loc) (f : PlatformInfo.t -> M ResultObj.t)
  : M loc :=
  let* ps := readPlatforms platforms in
  let* rs := forEachM f ps in
  alloc (ResultArr rs).

(** [results.sort(cmp)]: sorts the array in place and returns it. *)
Definition resultsSort (results : loc) (cmp : ResultObj.t -> ResultObj.t -> Z)
  : M loc :=
  let* rs := readResults results in
  let* _ := writeResults results (arraySort cmp rs) in
  ret results.

Definition getUnavailableItemsM (cart : loc) (platform : Platform) : M loc :=
  cartFilter cart (lacksAvailablePrice platform).

Definition areAllItemsAvailableM (cart : loc) (platform : Platform) : M bool :=
  cartEvery cart (hasAvailablePrice platform).

Definition getCartTotalM (cart : loc) (selectedPlatform platform : option Platform)
  : M Z :=
  cartReduce cart (addItem selectedPlatform platform) 0.

Definition evaluatePlatformM (cart : loc) (selectedPlatform : option Platform)
  (platform : PlatformInfo.t) : M ResultObj.t :=
  let* unavailableItems := getUnavailableItemsM cart (PlatformInfo.id platform) in
  let* available := areAllItemsAvailableM cart (PlatformInfo.id platform) in
  let* available' := areAllItemsAvailableM cart (PlatformInfo.id platform) in
  let* total :=
    if available'
    then getCartTotalM cart selectedPlatform (Some (PlatformInfo.id platform))
    else ret (-1) in
  ret (ResultObj.mk (PlatformInfo.id platform) (PlatformInfo.name platform)
                    unavailableItems available total).

Definition compareResultObjs (a b : ResultObj.t) : Z :=
  if ResultObj.available a && negb (ResultObj.available b) then -1
  else if negb (ResultObj.available a) && ResultObj.available b then 1
  else ResultObj.total a - ResultObj.total b.

Definition sortedPlatformsM (cart : loc) (selectedPlatform : option Platform)
  (platforms : loc) : M loc :=
  let* mapped := platformsMap platforms (evaluatePlatformM cart selectedPlatform) in
  resultsSort mapped compareResultObjs.

(** Reading a result object back as a value: its [unavailableItems]
    reference is followed. *)
Definition resultValue (st : gmap loc Arr) (r : ResultObj.t)
  : option PlatformResult.t :=
  match st !! ResultObj.unavailableItems r with
  | Some (CartArr items) =>
      Some (PlatformResult.mk (ResultObj.id r) (ResultObj.name r) items
                              (ResultObj.available r) (ResultObj.total r))
  | _ => None
  end.

Fixpoint resultValues (st : gmap loc Arr) (rs : list ResultObj.t)
  : option (list PlatformResult.t) :=
  match rs with
  | [] => Some []
  | r :: rs' =>
      match resultValue st r, resultValues st rs' with
      | Some v, Some vs => Some (v :: vs)
      | _, _ => None
      end
  end.

(** ** The specification's formulas *)

(** §4.2 of the specification, [priceFor]: the pinned platform's tuple when
    the entry has one, the context platform's tuple otherwise. *)
Definition spec_priceFor (entry : CartItem.t) (contextPlatform : Platform)
  : option PriceInfo.t :=
  match CartItem.platform entry with
  | Some pinned => findPrice (Some pinned) (Product.prices (CartItem.product entry))
  | None => findPrice (Some contextPlatform) (Product.prices (CartItem.product entry))
  end.

(** §4.1 step 4 of the specification: the sum over all entries of
    price × quantity, the price resolved by [spec_priceFor]. *)
Definition spec_total (cart : list CartItem.t) (P : Platform) : Z :=
  fold_right Z.add 0
    (map (fun entry =>
            match spec_priceFor entry P with
            | Some tuple => PriceInfo.price tuple * CartItem.quantity entry
            | None => 0
            end) cart).

(** ** The total as the code computes it *)

(** What a cart line pinned to [P] costs on [P]; any other line counts
    for nothing. *)
Definition pinnedCost (P : Platform) (entry : CartItem.t) : Z :=
  if strict_eq (CartItem.platform entry) (Some P) then
    match findPrice (Some P) (Product.prices (CartItem.product entry)) with
    | Some tuple =>
        if PriceInfo.available tuple
        then PriceInfo.price tuple * CartItem.quantity entry
        else 0
    | None => 0
    end
  else 0.

Definition pinnedTotal (cart : list CartItem.t) (P : Platform) : Z :=
  fold_right Z.add 0 (map (pinnedCost P) cart).

(** ** The order of the ranking *)

(** The sort key of the ranking: (¬available, total). *)
Definition rankKey (r : PlatformResult.t) : bool * Z :=
  (negb (PlatformResult.available r), PlatformResult.total r).

(** Lexicographic order on keys, [false] before [true]. *)
Definition keyLe (k1 k2 : bool * Z) : Prop :=
  match fst k1, fst k2 with
  | false, true => True
  | true, false => False
  | _, _ => snd k1 <= snd k2
  end.

Definition rankLe (a b : PlatformResult.t) : Prop := keyLe (rankKey a) (rankKey b).

Definition sameKey (k : bool * Z) (r : PlatformResult.t) : bool :=
  Bool.eqb (fst k) (fst (rankKey r)) && (snd k =? snd (rankKey r)).

(** ** Example data *)

(** The spec's example: product A, ₹10 and available on X, ₹8 and not
    available on Y; two of them in the cart, not pinned. *)
Definition productA : Product.t :=
  Product.mk "A"%string "productA"%string
    [PriceInfo.mk "X"%string 10 true; PriceInfo.mk "Y"%string 8 false].

Definition exampleCart : list CartItem.t := [CartItem.mk productA 2 None].

Definition platformX : PlatformInfo.t := PlatformInfo.mk "X"%string "X"%string.
Definition platformY : PlatformInfo.t := PlatformInfo.mk "Y"%string "Y"%string.

(** What [evaluatePlatform] makes of a platform when the cart is empty. *)
Definition emptyCartResult (p : PlatformInfo.t) : PlatformResult.t :=
  PlatformResult.mk (PlatformInfo.id p) (PlatformInfo.name p) [] true 0.

(** A line of [productA] pinned to platform Y. *)
Definition pinnedEntry : CartItem.t := CartItem.mk productA 2 (Some "Y"%string).

(** What the comparison view shows of a result: everything but the list
    of unavailable items. *)
Definition shown (r : PlatformResult.t) : Platform * string * bool * Z :=
  (PlatformResult.id r, PlatformResult.name r,
   PlatformResult.available r, PlatformResult.total r).

(** ** Changing the price of unavailable tuples *)

Fixpoint forall2b {A} (f : A -> A -> bool) (l l' : list A) : bool :=
  match l, l' with
  | [], [] => true
  | x :: l, x' :: l' => f x x' && forall2b f l l'
  | _, _ => false
  end.

(** [t'] is [t], but for its price when [t] is not available. *)
Definition repricedTuple (t t' : PriceInfo.t) : bool :=
  (PriceInfo.platform t =? PriceInfo.platform t')%string &&
  Bool.eqb (PriceInfo.available t) (PriceInfo.available t') &&
  (negb (PriceInfo.available t) || (PriceInfo.price t =? PriceInfo.price t')).

Definition repricedProduct (p p' : Product.t) : bool :=
  (Product.id p =? Product.id p')%string &&
  (Product.name p =? Product.name p')%string &&
  forall2b repricedTuple (Product.prices p) (Product.prices p').

Definition repricedItem (i i' : CartItem.t) : bool :=
  repricedProduct (CartItem.product i) (CartItem.product i') &&
  (CartItem.quantity i =? CartItem.quantity i') &&
  strict_eq (CartItem.platform i) (CartItem.platform i').

Definition repricedCart (cart cart' : list CartItem.t) : bool :=
  forall2b repricedItem cart cart'.

(** ** Invariant of the memo cell *)

(** The cached value is what [f] makes of the cached dependencies. *)
Definition cellOk (f : list CartItem.t -> list PlatformInfo.t -> list PlatformResult.t)
  (cell : option MemoCell.t) : Prop :=
  match cell with
  | Some c => MemoCell.value c = f (MemoCell.cart c) (MemoCell.platforms c)
  | None => True
  end.

(** A render whose computation is [f] of its cart and platforms. *)
Definition computes (f : list CartItem.t -> list PlatformInfo.t -> list PlatformResult.t)
  (r : Render.t) : Prop :=
  sortedPlatforms (Render.cart r) (Render.selectedPlatform r) (Render.platforms r)
  = f (Render.cart r) (Render.platforms r).

(** Two elements that compare equal: neither is greater than the other. *)
Definition tied {A} (cmp : A -> A -> Z) (x y : A) : bool :=
  (cmp x y <=? 0) && (cmp y x <=? 0).

(** ** CartItem.tsx: what a cart line shows *)

(** [priceInfo && priceInfo.available] *)
Definition isAvailable (item : CartItem.t) (platformFilter : option Platform) : bool :=
  match getPriceInfo item platformFilter with
  | Some priceInfo => PriceInfo.available priceInfo
  | None => false
  end.

(** [platformFilter && !isAvailable]: the warning banner, which also
    disables the quantity and remove buttons of the line. *)
Definition showUnavailableWarning (item : CartItem.t)
  (platformFilter : option Platform) : bool :=
  truthy platformFilter && negb (isAvailable item platformFilter).

(** The amount on the line: [priceInfo.price * quantity] when available,
    [None] for the text "Not Available". *)
Definition shownAmount (item : CartItem.t) (platformFilter : option Platform)
  : option Z :=
  match getPriceInfo item platformFilter with
  | Some priceInfo =>
      if PriceInfo.available priceInfo
      then Some (PriceInfo.price priceInfo * CartItem.quantity item)
      else None
  | None => None
  end.

(** ** PriceComparison.tsx: the best deal badge *)

(** [platform.id === bestPlatform?.id] *)
Definition isBestDeal (best : option PlatformResult.t) (row : PlatformResult.t)
  : bool :=
  match best with
  | Some b => (PlatformResult.id row =? PlatformResult.id b)%string
  | None => false
  end.

(** ** Index.tsx and ProductPagination: pages of products *)

Definition productsPerPage : Z := 20.

(** [Math.ceil(a / b)] on integers, [b] positive. *)
Definition mathCeilDiv (a b : Z) : Z := - ((- a) / b).

(** [Array.prototype.slice(start, end)]: a negative index counts from the
    end of the array, indices are clamped to the array, and an empty range
    gives the empty array. *)
Definition sliceIndex (len i : Z) : Z :=
  if i <? 0 then Z.max (len + i) 0 else Z.min i len.

Definition arraySlice {A} (l : list A) (start finish : Z) : list A :=
  let len := Z.of_nat (length l) in
  let k := sliceIndex len start in
  let final := sliceIndex len finish in
  firstn (Z.to_nat (final - k)) (skipn (Z.to_nat k) l).

Definition totalPages {A} (filteredProducts : list A) : Z :=
  mathCeilDiv (Z.of_nat (length filteredProducts)) productsPerPage.

Definition currentProducts {A} (filteredProducts : list A) (currentPage : Z)
  : list A :=
  let indexOfLastProduct := currentPage * productsPerPage in
  let indexOfFirstProduct := indexOfLastProduct - productsPerPage in
  arraySlice filteredProducts indexOfFirstProduct indexOfLastProduct.

(** The new [currentPage] after [nextPage()] and [prevPage()]. *)
Definition nextPage (totalPages currentPage : Z) : Z :=
  if currentPage <? totalPages then currentPage + 1 else currentPage.

Definition prevPage (currentPage : Z) : Z :=
  if currentPage >? 1 then currentPage - 1 else currentPage.

(** [for (let i = startPage; i <= endPage; i++) pages.push(i)] *)
Definition pagesFromTo (startPage endPage : Z) : list Z :=
  map (fun i => startPage + Z.of_nat i) (seq 0 (Z.to_nat (endPage - startPage + 1))).

(** Index.tsx: [getPageNumbers]. *)
Definition getPageNumbers (totalPages currentPage : Z) : list Z :=
  if totalPages <=? 5 then pagesFromTo 1 totalPages
  else if currentPage <=? 3 then pagesFromTo 1 5
  else if currentPage + 2 >=? totalPages then pagesFromTo (totalPages - 4) totalPages
  else pagesFromTo (currentPage - 2) (currentPage + 2).

(** ProductPagination: the page numbers of
    [Array.from({ length: Math.min(5, totalPages) }, (_, i) => ...)]. *)
Definition pageNumberAt (totalPages currentPage : Z) (i : nat) : Z :=
  if totalPages <=? 5 then Z.of_nat i + 1
  else if currentPage <=? 3 then Z.of_nat i + 1
  else if currentPage >=? totalPages - 2 then totalPages - 4 + Z.of_nat i
  else currentPage - 2 + Z.of_nat i.

Definition pageNumbersFrom (totalPages currentPage : Z) : list Z :=
  map (pageNumberAt totalPages currentPage) (seq 0 (Z.to_nat (Z.min 5 totalPages))).

(** [totalPages > 5 && currentPage < totalPages - 2]: the ellipsis and the
    button of the last page. *)
Definition showsLastPageButton (totalPages currentPage : Z) : bool :=
  (totalPages >? 5) && (currentPage <? totalPages - 2).

(** The buttons of the pagination bar of Index.tsx. *)
Inductive Button :=
| PrevButton
| NextButton
| PageButton (number : Z)
| LastPageButton.

(** The button is on the page and can be clicked: the bar is rendered
    when [totalPages > 1], the previous and next buttons are disabled on
    the first and on the last page, a page button is one of
    [getPageNumbers()]. *)
Definition canClick (totalPages currentPage : Z) (b : Button) : bool :=
  (totalPages >? 1) &&
  match b with
  | PrevButton => negb (currentPage =? 1)
  | NextButton => negb (currentPage =? totalPages)
  | PageButton number => existsb (Z.eqb number) (getPageNumbers totalPages currentPage)
  | LastPageButton => showsLastPageButton totalPages currentPage
  end.

(** The [currentPage] that the [onClick] of the button sets. *)
Definition click (totalPages currentPage : Z) (b : Button) : Z :=
  match b with
  | PrevButton => prevPage currentPage
  | NextButton => nextPage totalPages currentPage
  | PageButton number => number
  | LastPageButton => totalPages
  end.

(** Clicks one after the other; [None] when a button cannot be clicked. *)
Fixpoint clicks (totalPages currentPage : Z) (bs : list Button) : option Z :=
  match bs with
  | [] => Some currentPage
  | b :: bs' =>
      if canClick totalPages currentPage b
      then clicks totalPages (click totalPages currentPage b) bs'
      else None
  end.

(** ** FilterByPriceRange *)



(** The callback of the filter of the effect. *)
Definition inPriceRange (minPrice maxPrice : Z) (product : Product.t) : bool :=
  existsb (fun price =>
             PriceInfo.available price &&
             (PriceInfo.price price >=? minPrice) &&
             (PriceInfo.price price <=? maxPrice))
          (Product.prices product).

(** [prevFiltered.filter(...)] *)
Definition applyPriceFilter (minPrice maxPrice : Z) (prevFiltered : list Product.t)
  : list Product.t :=
  List.filter (inPriceRange minPrice maxPrice) prevFiltered.

(** ** ProductSorting: by price *)

(** [Math.min(...prices)]; [None] is the [Infinity] of no argument. *)
Definition mathMin (l : list Z) : option Z :=
  fold_right (fun x acc =>
                match acc with
                | Some m => Some (Z.min x m)
                | None => Some x
                end) None l.

(** [Math.min(...a.prices.filter(p => p.available).map(p => p.price))];
    in Index.tsx the mapped array is followed by [|| [Infinity]] (or
    [|| [0]]), which is never taken, an array being truthy. *)
Definition lowestAvailablePrice (a : Product.t) : option Z :=
  mathMin (map PriceInfo.price (List.filter PriceInfo.available (Product.prices a))).

(** [x - y] as [sort] reads it: the sign alone matters, an infinite
    difference is given as [1] or [-1], and [Infinity - Infinity], which is
    [NaN], counts as [0]. *)
Definition minusForSort (x y : option Z) : Z :=
  match x, y with
  | Some a, Some b => a - b
  | None, Some _ => 1
  | Some _, None => -1
  | None, None => 0
  end.

Definition comparePriceLow (a b : Product.t) : Z :=
  minusForSort (lowestAvailablePrice a) (lowestAvailablePrice b).

Definition comparePriceHigh (a b : Product.t) : Z :=
  minusForSort (lowestAvailablePrice b) (lowestAvailablePrice a).

(** [sortedProducts] of the cases ['price-low'] and ['price-high']. *)
Definition sortPriceLow (filteredProducts : list Product.t) : list Product.t :=
  arraySort comparePriceLow filteredProducts.

Definition sortPriceHigh (filteredProducts : list Product.t) : list Product.t :=
  arraySort comparePriceHigh filteredProducts.

(** Order on lowest prices, [Infinity] last. *)
Definition priceLe (x y : option Z) : Prop :=
  match x, y with
  | Some a, Some b => a <= b
  | _, None => True
  | None, Some _ => False
  end.

(** ** Carts of well-formed lines *)

(** Prices and quantities are not negative. *)
Definition nonNegativeItem (item : CartItem.t) : Prop :=
  0 <= CartItem.quantity item /\
  Forall (fun t => 0 <= PriceInfo.price t) (Product.prices (CartItem.product item)).


Definition sumZ (l : list Z) : Z := fold_right Z.add 0 l.

(** * Properties *)

(** ** The sort *)

Section SortFacts.
Context {A : Type} (cmp : A -> A -> Z).

Lemma insertSorted_perm (x : A) (l : list A) :
  Permutation (insertSorted cmp x l) (x :: l).
Proof.
  induction l as [|y l IH]; simpl.
  - reflexivity.
  - destruct (cmp x y <=? 0).
    + reflexivity.
    + rewrite IH. apply perm_swap.
Qed.

Lemma arraySort_perm (l : list A) : Permutation (arraySort cmp l) l.
Proof.
  induction l as [|x l IH]; simpl.
  - reflexivity.
  - rewrite insertSorted_perm. now constructor.
Qed.

Lemma arraySort_In (l : list A) (x : A) : In x (arraySort cmp l) <-> In x l.
Proof.
  split; apply Permutation_in;
    [apply arraySort_perm | symmetry; apply arraySort_perm].
Qed.

(** A class of elements that never compare greater than one another keeps
    its order. *)
Lemma insertSorted_filter (f : A -> bool) (x : A) (l : list A) :
  (forall a b, f a = true -> f b = true -> cmp a b <= 0) ->
  List.filter f (insertSorted cmp x l) = List.filter f (x :: l).
Proof.
  intros Hf. induction l as [|y l IH]; simpl.
  - reflexivity.
  - destruct (cmp x y <=? 0) eqn:Hc; simpl.
    + reflexivity.
    + rewrite IH. simpl.
      destruct (f x) eqn:Hx, (f y) eqn:Hy; try reflexivity.
      apply Z.leb_gt in Hc. specialize (Hf x y Hx Hy). lia.
Qed.

Lemma arraySort_filter (f : A -> bool) (l : list A) :
  (forall a b, f a = true -> f b = true -> cmp a b <= 0) ->
  List.filter f (arraySort cmp l) = List.filter f l.
Proof.
  intros Hf. induction l as [|x l IH]; simpl.
  - reflexivity.
  - rewrite insertSorted_filter by assumption. simpl. now rewrite IH.
Qed.

(** An array already in order is left as it is. *)
Lemma arraySort_sorted_id (l : list A) :
  StronglySorted (fun a b => cmp a b <= 0) l -> arraySort cmp l = l.
Proof.
  induction 1 as [|x l Hs IH Hx]; simpl.
  - reflexivity.
  - rewrite IH. destruct l as [|y l']; simpl.
    + reflexivity.
    + inversion Hx as [|? ? Hy _]; subst.
      apply Z.leb_le in Hy. now rewrite Hy.
Qed.

Section Consistent.
Hypothesis cmp_total : forall a b, 0 < cmp a b -> cmp b a <= 0.
Hypothesis cmp_trans : forall a b c, cmp a b <= 0 -> cmp b c <= 0 -> cmp a c <= 0.

Lemma insertSorted_sorted (x : A) (l : list A) :
  StronglySorted (fun a b => cmp a b <= 0) l ->
  StronglySorted (fun a b => cmp a b <= 0) (insertSorted cmp x l).
Proof using cmp_total cmp_trans.
  induction 1 as [|y l Hs IH Hy]; simpl.
  - repeat constructor.
  - destruct (cmp x y <=? 0) eqn:Hc.
    + apply Z.leb_le in Hc. constructor.
      * now constructor.
      * constructor; [assumption|].
        eapply List.Forall_impl; [|exact Hy]. intros z Hz. eauto.
    + apply Z.leb_gt in Hc. constructor; [assumption|].
      eapply Permutation_Forall; [symmetry; apply insertSorted_perm|].
      constructor; [auto|assumption].
Qed.

Lemma arraySort_sorted (l : list A) :
  StronglySorted (fun a b => cmp a b <= 0) (arraySort cmp l).
Proof using cmp_total cmp_trans.
  induction l as [|x l IH]; simpl.
  - constructor.
  - now apply insertSorted_sorted.
Qed.

Lemma cmp_refl (a : A) : cmp a a <= 0.
Proof using cmp_total.
  destruct (Z_lt_le_dec 0 (cmp a a)) as [H|H]; [|exact H].
  now apply cmp_total.
Qed.

Lemma tied_le (x a b : A) :
  tied cmp x a = true -> tied cmp x b = true -> cmp a b <= 0.
Proof using cmp_trans.
  unfold tied. intros Ha Hb.
  apply andb_prop in Ha as [_ Ha]. apply andb_prop in Hb as [Hb _].
  apply Z.leb_le in Ha, Hb. eauto.
Qed.

(** Two arrangements in order, with the same elements tied to any given
    one and in the same order, are the same arrangement. *)
Lemma stable_sorted_unique (l1 : list A) :
  forall l2,
    StronglySorted (fun a b => cmp a b <= 0) l1 ->
    StronglySorted (fun a b => cmp a b <= 0) l2 ->
    (forall x, List.filter (tied cmp x) l1 = List.filter (tied cmp x) l2) ->
    l1 = l2.
Proof using cmp_total cmp_trans.
  assert (Hself : forall y, tied cmp y y = true).
  { intros y. unfold tied. pose proof (cmp_refl y) as H.
    apply Z.leb_le in H. now rewrite H. }
  induction l1 as [|a l1 IH]; intros l2 Hs1 Hs2 Hf.
  - destruct l2 as [|y l2]; [reflexivity|].
    specialize (Hf y). simpl in Hf. rewrite Hself in Hf. discriminate.
  - inversion Hs1 as [|? ? Hs1' Ha]; subst.
    destruct l2 as [|y l2].
    { specialize (Hf a). simpl in Hf. rewrite Hself in Hf. discriminate. }
    inversion Hs2 as [|? ? Hs2' Hy]; subst.
    assert (Hay : a = y).
    { pose proof (Hf a) as Hfa. pose proof (Hf y) as Hfy. simpl in Hfa, Hfy.
      rewrite Hself in Hfa, Hfy.
      destruct (tied cmp a y) eqn:Hty; [now injection Hfa|].
      destruct (tied cmp y a) eqn:Hta.
      { unfold tied in Hty, Hta. rewrite andb_comm in Hta. congruence. }
      assert (Hin_y : In y l1).
      { assert (Hin : In y (List.filter (tied cmp y) l1))
          by (rewrite Hfy; now left).
        apply filter_In in Hin. tauto. }
      assert (Hin_a : In a l2).
      { assert (Hin : In a (List.filter (tied cmp a) l2))
          by (rewrite <- Hfa; now left).
        apply filter_In in Hin. tauto. }
      rewrite List.Forall_forall in Ha, Hy.
      specialize (Ha y Hin_y). specialize (Hy a Hin_a).
      unfold tied in Hty. apply Z.leb_le in Ha, Hy.
      rewrite Ha, Hy in Hty. discriminate. }
    subst y. f_equal. apply IH; try assumption.
    intros x. specialize (Hf x). simpl in Hf.
    destruct (tied cmp x a); [now injection Hf|exact Hf].
Qed.

(** Whatever sorts stably by [cmp] returns [arraySort cmp]. *)
Lemma arraySort_is_the_stable_sort (l sorted : list A) :
  StronglySorted (fun a b => cmp a b <= 0) sorted ->
  (forall x, List.filter (tied cmp x) sorted = List.filter (tied cmp x) l) ->
  sorted = arraySort cmp l.
Proof using cmp_total cmp_trans.
  intros Hs Hf. apply stable_sorted_unique.
  - exact Hs.
  - apply arraySort_sorted.
  - intros x. rewrite Hf. symmetry.
    apply arraySort_filter. intros a b. apply tied_le.
Qed.

End Consistent.
End SortFacts.

(** Sorting two arrays whose elements correspond, with comparators that
    agree on corresponding elements, gives corresponding arrays. *)
Lemma arraySort_Forall2 {A B : Type} (R : A -> B -> Prop)
  (cmpA : A -> A -> Z) (cmpB : B -> B -> Z) :
  (forall a a' b b', R a b -> R a' b' -> cmpA a a' = cmpB b b') ->
  forall l l', Forall2 R l l' ->
               Forall2 R (arraySort cmpA l) (arraySort cmpB l').
Proof.
  intros Hcmp. induction 1 as [|a b l l' Hab Hl IH]; simpl.
  - constructor.
  - clear Hl. induction IH as [|a' b' s s' Hab' Hs IHs]; simpl.
    + repeat constructor. assumption.
    + rewrite (Hcmp a a' b b') by assumption.
      destruct (cmpB b b' <=? 0); repeat constructor; assumption.
Qed.

(** ** The comparator *)

Lemma compareResults_le (a b : PlatformResult.t) :
  compareResults a b <= 0 <-> rankLe a b.
Proof.
  unfold compareResults, rankLe, keyLe, rankKey; simpl.
  destruct (PlatformResult.available a), (PlatformResult.available b); simpl; lia.
Qed.

Lemma compareResults_total (a b : PlatformResult.t) :
  0 < compareResults a b -> compareResults b a <= 0.
Proof.
  unfold compareResults.
  destruct (PlatformResult.available a), (PlatformResult.available b); simpl; lia.
Qed.

Lemma compareResults_trans (a b c : PlatformResult.t) :
  compareResults a b <= 0 -> compareResults b c <= 0 -> compareResults a c <= 0.
Proof.
  unfold compareResults.
  destruct (PlatformResult.available a), (PlatformResult.available b),
    (PlatformResult.available c); simpl; lia.
Qed.

Lemma compareResults_sameKey (k : bool * Z) (a b : PlatformResult.t) :
  sameKey k a = true -> sameKey k b = true -> compareResults a b <= 0.
Proof.
  unfold sameKey, compareResults, rankKey; simpl. intros Ha Hb.
  apply andb_prop in Ha as [Ha1 Ha2]. apply andb_prop in Hb as [Hb1 Hb2].
  apply eqb_prop in Ha1, Hb1. apply Z.eqb_eq in Ha2, Hb2.
  destruct (PlatformResult.available a), (PlatformResult.available b);
    simpl in *; try lia; congruence.
Qed.

Lemma compareResults_consistent (mapped sorted : list PlatformResult.t) :
  StronglySorted (fun a b => compareResults a b <= 0) sorted ->
  (forall x, List.filter (tied compareResults x) sorted
             = List.filter (tied compareResults x) mapped) ->
  sorted = arraySort compareResults mapped.
Proof.
  apply arraySort_is_the_stable_sort.
  - exact compareResults_total.
  - exact compareResults_trans.
Qed.

(** ** The spec's example, evaluated *)

Example example_ranking :
  sortedPlatforms exampleCart None [platformY; platformX]
  = [PlatformResult.mk "X"%string "X"%string [] true 0;
     PlatformResult.mk "Y"%string "Y"%string exampleCart false (-1)].
Proof. reflexivity. Qed.

Example example_best :
  option_map PlatformResult.id (bestPlatform exampleCart None [platformX; platformY])
  = Some "X"%string.
Proof. reflexivity. Qed.

Example example_pinned_totals :
  map shown
    (sortedPlatforms
       [CartItem.mk productA 2 (Some "X"%string);
        CartItem.mk (Product.mk "B"%string "productB"%string
                       [PriceInfo.mk "X"%string 7 true;
                        PriceInfo.mk "Y"%string 3 true]) 1 (Some "Y"%string);
        CartItem.mk (Product.mk "C"%string "productC"%string
                       [PriceInfo.mk "X"%string 4 true;
                        PriceInfo.mk "Y"%string 100 true]) 5 None]
       None
       [platformY; platformX;
        PlatformInfo.mk "Z"%string "Z"%string])
  = [("X"%string, "X"%string, true, 20);
     ("Y"%string, "Y"%string, false, -1);
     ("Z"%string, "Z"%string, false, -1)].
Proof. reflexivity. Qed.

(** ** Elements of the ranking *)

Lemma sortedPlatforms_perm cart sel platforms :
  Permutation (sortedPlatforms cart sel platforms)
              (map (evaluatePlatform cart sel) platforms).
Proof. apply arraySort_perm. Qed.

Lemma sortedPlatforms_In cart sel platforms (r : PlatformResult.t) :
  In r (sortedPlatforms cart sel platforms) <->
  exists p, In p platforms /\ r = evaluatePlatform cart sel p.
Proof.
  unfold sortedPlatforms. rewrite arraySort_In, in_map_iff.
  split; intros [p [H1 H2]]; exists p; auto.
Qed.

Lemma sortedPlatforms_strongly_sorted cart sel platforms :
  StronglySorted rankLe (sortedPlatforms cart sel platforms).
Proof.
  pose proof (arraySort_sorted compareResults compareResults_total
                compareResults_trans
                (map (evaluatePlatform cart sel) platforms)) as H.
  unfold sortedPlatforms.
  induction H as [|x l Hs IH Hx]; constructor; [assumption|].
  eapply List.Forall_impl; [|exact Hx].
  intros b Hb. now apply compareResults_le.
Qed.

Lemma StronglySorted_split {A} (R : A -> A -> Prop) before a between b after :
  StronglySorted R (before ++ a :: between ++ b :: after) -> R a b.
Proof.
  induction before as [|x before IH]; simpl; intros H.
  - inversion H as [|? ? _ Hall]; subst.
    rewrite List.Forall_forall in Hall. apply Hall.
    apply in_or_app. right. now left.
  - inversion H; subst. auto.
Qed.

Lemma sortedPlatforms_order cart sel platforms before a between b after :
  sortedPlatforms cart sel platforms = before ++ a :: between ++ b :: after ->
  (PlatformResult.available b = true -> PlatformResult.available a = true) /\
  (PlatformResult.available a = true -> PlatformResult.available b = true ->
   PlatformResult.total a <= PlatformResult.total b).
Proof.
  intros Heq.
  pose proof (sortedPlatforms_strongly_sorted cart sel platforms) as Hs.
  rewrite Heq in Hs. apply StronglySorted_split in Hs.
  unfold rankLe, keyLe, rankKey in Hs; simpl in Hs.
  destruct (PlatformResult.available a), (PlatformResult.available b);
    simpl in Hs; split; intros; try congruence; try lia; try contradiction.
Qed.

(** C3. The ranked sequence is in ascending order of the key
    (¬available, total): of two results, one placed before the other, the
    later is available only if the earlier is, and when both are available
    the earlier total is at most the later one. *)
Theorem ranking_sorted_by_availability_then_total
  (cart : list CartItem.t) (sel : option Platform)
  (platforms : list PlatformInfo.t) :
  StronglySorted rankLe (sortedPlatforms cart sel platforms) /\
  forall before a between b after,
    sortedPlatforms cart sel platforms = before ++ a :: between ++ b :: after ->
    (PlatformResult.available b = true -> PlatformResult.available a = true) /\
    (PlatformResult.available a = true -> PlatformResult.available b = true ->
     PlatformResult.total a <= PlatformResult.total b).
Proof.
  split.
  - apply sortedPlatforms_strongly_sorted.
  - apply sortedPlatforms_order.
Qed.

Lemma ranking_sorted_by_availability_then_total_witness :
  let x := PlatformResult.mk "X"%string "X"%string [] true 0 in
  let y := PlatformResult.mk "Y"%string "Y"%string exampleCart false (-1) in
  sortedPlatforms exampleCart None [platformY; platformX] = [] ++ x :: [] ++ y :: [] /\
  (PlatformResult.available y = true -> PlatformResult.available x = true) /\
  (PlatformResult.available x = true -> PlatformResult.available y = true ->
   PlatformResult.total x <= PlatformResult.total y).
Proof.
  intros x y.
  assert (H : sortedPlatforms exampleCart None [platformY; platformX]
              = [] ++ x :: [] ++ y :: []) by reflexivity.
  split; [exact H|].
  exact (proj2 (ranking_sorted_by_availability_then_total
                  exampleCart None [platformY; platformX]) [] x [] y [] H).
Defined.

(** ** Best deal *)

Lemma find_first {A} (f : A -> bool) (l : list A) :
  match List.find f l with
  | Some x => exists before after,
      l = before ++ x :: after /\ f x = true /\
      Forall (fun y => f y = false) before
  | None => Forall (fun y => f y = false) l
  end.
Proof.
  induction l as [|y l IH]; simpl.
  - constructor.
  - destruct (f y) eqn:Hy.
    + exists [], l. repeat split; auto.
    + destruct (List.find f l) as [x|].
      * destruct IH as (before & after & -> & Hx & Hb).
        exists (y :: before), after. repeat split; auto.
      * constructor; assumption.
Qed.

Lemma evaluatePlatform_available cart sel p :
  PlatformResult.available (evaluatePlatform cart sel p)
  = areAllItemsAvailable cart (PlatformInfo.id p).
Proof. reflexivity. Qed.

(** C4. The best deal is the first result of the ranked sequence whose
    [available] flag is set (it is in fact the head of the sequence); it is
    absent, as a value, exactly when no platform has every cart item
    available. *)
Theorem bestPlatform_first_available_or_absent
  (cart : list CartItem.t) (sel : option Platform)
  (platforms : list PlatformInfo.t) :
  match bestPlatform cart sel platforms with
  | Some best =>
      PlatformResult.available best = true /\
      (exists before after,
          sortedPlatforms cart sel platforms = before ++ best :: after /\
          Forall (fun r => PlatformResult.available r = false) before) /\
      (exists after, sortedPlatforms cart sel platforms = best :: after)
  | None =>
      Forall (fun r => PlatformResult.available r = false)
             (sortedPlatforms cart sel platforms)
  end /\
  (bestPlatform cart sel platforms = None <->
   Forall (fun p => areAllItemsAvailable cart (PlatformInfo.id p) = false)
          platforms).
Proof.
  unfold bestPlatform.
  pose proof (find_first PlatformResult.available
                (sortedPlatforms cart sel platforms)) as Hf.
  pose proof (sortedPlatforms_order cart sel platforms) as Hs.
  assert (Hnone : Forall (fun r => PlatformResult.available r = false)
                    (sortedPlatforms cart sel platforms) <->
                  Forall (fun p => areAllItemsAvailable cart (PlatformInfo.id p)
                                   = false) platforms).
  { rewrite !List.Forall_forall. split.
    - intros H p Hp. rewrite <- (evaluatePlatform_available cart sel).
      apply H. apply sortedPlatforms_In. eauto.
    - intros H r Hr. apply sortedPlatforms_In in Hr as (p & Hp & ->).
      rewrite evaluatePlatform_available. auto. }
  destruct (List.find PlatformResult.available
              (sortedPlatforms cart sel platforms)) as [best|].
  - destruct Hf as (before & after & Heq & Hbest & Hbefore).
    split; [split; [assumption|split]|].
    + eauto.
    + destruct before as [|r before].
      * simpl in Heq. eauto.
      * exfalso. inversion Hbefore as [|? ? Hr _]; subst.
        change ((r :: before) ++ best :: after)
          with ([] ++ r :: before ++ best :: after) in Heq.
        apply Hs in Heq. destruct Heq as [Havail _].
        rewrite Havail in Hr by assumption. discriminate.
    + split; [discriminate|]. intros Hall. apply Hnone in Hall.
      rewrite Heq in Hall. apply Forall_app in Hall as [_ Hall].
      inversion Hall; subst. congruence.
  - split; [assumption|]. split; [intros _; now apply Hnone | reflexivity].
Qed.

(** ** The empty cart *)

Lemma emptyCartResults_in_order (platforms : list PlatformInfo.t) :
  StronglySorted (fun a b => compareResults a b <= 0)
                 (map emptyCartResult platforms).
Proof.
  induction platforms as [|p ps IH]; simpl; constructor.
  - assumption.
  - apply List.Forall_forall. intros r Hr.
    apply in_map_iff in Hr as (q & <- & _). cbv. discriminate.
Qed.

(** C5. On the empty cart every platform comes out available with total 0,
    in input order, and the best deal is the first platform of the input. *)
Theorem empty_cart_all_available_first_is_best
  (sel : option Platform) (p : PlatformInfo.t) (ps : list PlatformInfo.t) :
  sortedPlatforms [] sel (p :: ps) = map emptyCartResult (p :: ps) /\
  Forall (fun r => PlatformResult.available r = true /\ PlatformResult.total r = 0)
         (sortedPlatforms [] sel (p :: ps)) /\
  bestPlatform [] sel (p :: ps) = Some (emptyCartResult p).
Proof.
  assert (Heq : sortedPlatforms [] sel (p :: ps) = map emptyCartResult (p :: ps)).
  { unfold sortedPlatforms.
    change (map (evaluatePlatform [] sel) (p :: ps))
      with (map emptyCartResult (p :: ps)).
    apply arraySort_sorted_id, emptyCartResults_in_order. }
  split; [exact Heq|]. split.
  - rewrite Heq. apply List.Forall_forall. intros r Hr.
    apply in_map_iff in Hr as (q & <- & _). split; reflexivity.
  - unfold bestPlatform. rewrite Heq. reflexivity.
Qed.

(** ** Availability and the unavailable items *)

Lemma lacks_not_has (platform : Platform) (item : CartItem.t) :
  lacksAvailablePrice platform item = negb (hasAvailablePrice platform item).
Proof.
  unfold lacksAvailablePrice, hasAvailablePrice.
  now destruct (findPrice _ _).
Qed.

Lemma areAllItemsAvailable_iff (cart : list CartItem.t) (platform : Platform) :
  areAllItemsAvailable cart platform = true <->
  getUnavailableItems cart platform = [].
Proof.
  unfold areAllItemsAvailable, getUnavailableItems.
  induction cart as [|item cart IH]; simpl.
  - tauto.
  - rewrite lacks_not_has.
    destruct (hasAvailablePrice platform item); simpl.
    + exact IH.
    + split; discriminate.
Qed.

(** C6. In every result of the ranking, [available] is set if and only if
    [unavailableItems] is empty, that is, when every cart item has an
    available price tuple for the platform; the same holds of the two
    functions on any platform. *)
Theorem available_iff_no_unavailable_items
  (cart : list CartItem.t) (sel : option Platform)
  (platforms : list PlatformInfo.t) :
  Forall (fun r => PlatformResult.available r = true <->
                   PlatformResult.unavailableItems r = [])
         (sortedPlatforms cart sel platforms) /\
  (forall P : Platform,
      areAllItemsAvailable cart P = true <-> getUnavailableItems cart P = []) /\
  (forall P : Platform,
      getUnavailableItems cart P = [] <->
      Forall (fun item =>
                exists tuple,
                  findPrice (Some P) (Product.prices (CartItem.product item))
                  = Some tuple /\ PriceInfo.available tuple = true) cart).
Proof.
  split; [|split].
  - apply List.Forall_forall. intros r Hr.
    apply sortedPlatforms_In in Hr as (p & _ & ->). simpl.
    apply areAllItemsAvailable_iff.
  - intros P. apply areAllItemsAvailable_iff.
  - intros P. rewrite <- areAllItemsAvailable_iff.
    unfold areAllItemsAvailable. rewrite forallb_forall, List.Forall_forall.
    split; intros H item Hin; specialize (H item Hin);
      unfold hasAvailablePrice in *;
      destruct (findPrice (Some P) (Product.prices (CartItem.product item)))
        as [t|].
    + eauto.
    + discriminate.
    + destruct H as (t' & [= <-] & Ht). exact Ht.
    + destruct H as (t' & Ht' & _). discriminate.
Qed.

(** ** Stability *)

Lemma unavailable_key cart sel p :
  areAllItemsAvailable cart (PlatformInfo.id p) = false ->
  rankKey (evaluatePlatform cart sel p) = (true, -1).
Proof. intros H. unfold rankKey; simpl. now rewrite H. Qed.

(** C7. Results with one and the same key (¬available, total) stand in the
    ranking in the order their platforms have in the input; this covers
    all the unavailable platforms together, whose key is (true, -1). *)
Theorem ranking_stable
  (cart : list CartItem.t) (sel : option Platform)
  (platforms : list PlatformInfo.t) :
  (forall k : bool * Z,
      List.filter (sameKey k) (sortedPlatforms cart sel platforms)
      = List.filter (sameKey k) (map (evaluatePlatform cart sel) platforms)) /\
  List.filter (fun r => negb (PlatformResult.available r))
              (sortedPlatforms cart sel platforms)
  = map (evaluatePlatform cart sel)
        (List.filter (fun p => negb (areAllItemsAvailable cart (PlatformInfo.id p)))
                     platforms).
Proof.
  assert (Hk : forall k,
      List.filter (sameKey k) (sortedPlatforms cart sel platforms)
      = List.filter (sameKey k) (map (evaluatePlatform cart sel) platforms)).
  { intros k. apply arraySort_filter, compareResults_sameKey. }
  split; [exact Hk|].
  transitivity (List.filter (sameKey (true, -1))
                  (sortedPlatforms cart sel platforms)).
  - apply filter_ext_in. intros r Hr.
    apply sortedPlatforms_In in Hr as (p & _ & ->).
    unfold sameKey, rankKey; simpl.
    destruct (areAllItemsAvailable cart (PlatformInfo.id p)); reflexivity.
  - rewrite Hk. clear Hk.
    induction platforms as [|p ps IH]; simpl; [reflexivity|].
    unfold sameKey at 1, rankKey; simpl.
    destruct (areAllItemsAvailable cart (PlatformInfo.id p)); simpl.
    + exact IH.
    + f_equal. exact IH.
Qed.

(** ** The total of a platform *)

Lemma strict_eq_true (a b : option Platform) : strict_eq a b = true <-> a = b.
Proof.
  destruct a as [s|], b as [t|]; simpl; try (split; congruence).
  rewrite String.eqb_eq. split; congruence.
Qed.

Lemma truthy_Some (P : Platform) : P <> ""%string -> truthy (Some P) = true.
Proof. intros H. simpl. apply String.eqb_neq in H. now rewrite H. Qed.

Lemma addItem_pinnedCost sel (P : Platform) (total : Z) (item : CartItem.t) :
  P <> ""%string ->
  addItem sel (Some P) total item = total + pinnedCost P item.
Proof.
  intros HP. unfold addItem, pinnedCost, cartPriceInfo.
  rewrite (truthy_Some P HP). simpl andb.
  destruct (strict_eq (CartItem.platform item) (Some P)) eqn:He; simpl.
  - apply strict_eq_true in He. rewrite He. unfold js_or.
    rewrite (truthy_Some P HP).
    destruct (findPrice (Some P) _) as [t|]; [|lia].
    destruct (PriceInfo.available t); lia.
  - lia.
Qed.

Lemma fold_left_add {A} (g : A -> Z) (f : Z -> A -> Z) (l : list A) (init : Z) :
  (forall total x, f total x = total + g x) ->
  fold_left f l init = init + fold_right Z.add 0 (map g l).
Proof.
  intros Hf. revert init. induction l as [|x l IH]; intros init; simpl.
  - lia.
  - rewrite IH, Hf. lia.
Qed.

Lemma getCartTotal_pinnedTotal cart sel (P : Platform) :
  P <> ""%string -> getCartTotal cart sel (Some P) = pinnedTotal cart P.
Proof.
  intros HP. unfold getCartTotal, pinnedTotal.
  rewrite (fold_left_add (pinnedCost P)); [lia|].
  intros. now apply addItem_pinnedCost.
Qed.

(** C1, as the code has it. The total of an available platform P is the
    sum, over the cart lines pinned to P, of P's price × quantity; a line
    that is not pinned, or is pinned to another platform, adds nothing.
    On the spec's example, whose one line is not pinned, the total of X
    is 0. *)
Theorem total_sums_lines_pinned_to_platform
  (cart : list CartItem.t) (sel : option Platform)
  (platforms : list PlatformInfo.t) :
  (namedPlatforms platforms ->
   Forall (fun r => PlatformResult.available r = true ->
                    PlatformResult.total r = pinnedTotal cart (PlatformResult.id r))
          (sortedPlatforms cart sel platforms)) /\
  (forall P entry,
      CartItem.platform entry <> Some P -> pinnedCost P entry = 0) /\
  map shown (sortedPlatforms exampleCart sel [platformX; platformY])
  = [("X"%string, "X"%string, true, 0); ("Y"%string, "Y"%string, false, -1)].
Proof.
  split; [|split].
  - intros Hnamed. apply List.Forall_forall. intros r Hr.
    apply sortedPlatforms_In in Hr as (p & Hp & ->). simpl. intros Hav.
    rewrite Hav. apply getCartTotal_pinnedTotal.
    unfold namedPlatforms in Hnamed. rewrite List.Forall_forall in Hnamed. auto.
  - intros P entry Hne. unfold pinnedCost.
    destruct (strict_eq (CartItem.platform entry) (Some P)) eqn:He; [|reflexivity].
    apply strict_eq_true in He. contradiction.
  - reflexivity.
Qed.

Lemma total_sums_lines_pinned_to_platform_witness :
  namedPlatforms [platformX; platformY] /\
  Forall (fun r => PlatformResult.available r = true ->
                   PlatformResult.total r
                   = pinnedTotal [pinnedEntry; CartItem.mk productA 3 (Some "X"%string)]
                                 (PlatformResult.id r))
         (sortedPlatforms [pinnedEntry; CartItem.mk productA 3 (Some "X"%string)]
                          None [platformX; platformY]).
Proof.
  assert (H : namedPlatforms [platformX; platformY])
    by (repeat constructor; discriminate).
  split; [exact H|].
  exact (proj1 (total_sums_lines_pinned_to_platform
                  [pinnedEntry; CartItem.mk productA 3 (Some "X"%string)]
                  None [platformX; platformY]) H).
Defined.

(** C1, as the spec words it, fails on the spec's own example: the total
    computed for X is 0, where the spec's sum is 20. *)
Lemma spec_example_total_is_0_not_20 :
  map shown (sortedPlatforms exampleCart None [platformX; platformY])
  = [("X"%string, "X"%string, true, 0); ("Y"%string, "Y"%string, false, -1)] /\
  spec_total exampleCart "X"%string = 20 /\
  ~ (forall cart sel platforms,
        Forall (fun r => PlatformResult.available r = true ->
                         PlatformResult.total r
                         = spec_total cart (PlatformResult.id r))
               (sortedPlatforms cart sel platforms)).
Proof.
  split; [reflexivity|]. split; [reflexivity|].
  intros H. specialize (H exampleCart None [platformX; platformY]).
  inversion H as [|r l Hr _]; subst. specialize (Hr eq_refl). discriminate Hr.
Qed.

(** ** Which tuple prices a cart line *)

Lemma getCartTotal_one_line (sel : option Platform) (item : CartItem.t) :
  getCartTotal [item] sel None =
  match cartPriceInfo sel item with
  | Some tuple =>
      if PriceInfo.available tuple
      then PriceInfo.price tuple * CartItem.quantity item
      else 0
  | None => 0
  end.
Proof.
  unfold getCartTotal, addItem; simpl.
  destruct (cartPriceInfo sel item) as [t|]; [|reflexivity].
  destruct (PriceInfo.available t); reflexivity.
Qed.

Lemma findPrice_None (prices : list PriceInfo.t) : findPrice None prices = None.
Proof.
  unfold findPrice. induction prices as [|t l IH]; simpl; [reflexivity|exact IH].
Qed.

(** C2, as the code has it. [getCartTotal] prices a line from the tuple of
    its pinned platform when it has one, whatever the context platform, and
    from the tuple of the context platform otherwise.  [getPriceInfo] of
    the cart view goes the other way round: from the tuple of the context
    platform ([platformFilter]) when one is given, whatever the pin, and
    from the pinned platform's tuple otherwise (no tuple when there is
    neither).  The two give the same tuple when the line is not pinned,
    when no context platform is given, or when pin and context platform
    are the same; the tuple [getCartTotal] reads is the one of the spec's
    [priceFor]. *)
Theorem price_resolution_of_total_and_of_cart_view
  (item : CartItem.t) (context : option Platform) :
  let prices := Product.prices (CartItem.product item) in
  let pinned := CartItem.platform item in
  (truthy pinned = true -> cartPriceInfo context item = findPrice pinned prices) /\
  (truthy pinned = false -> cartPriceInfo context item = findPrice context prices) /\
  getCartTotal [item] context None =
    match cartPriceInfo context item with
    | Some tuple =>
        if PriceInfo.available tuple
        then PriceInfo.price tuple * CartItem.quantity item
        else 0
    | None => 0
    end /\
  (truthy context = true -> getPriceInfo item context = findPrice context prices) /\
  (truthy context = false -> truthy pinned = true ->
   getPriceInfo item context = findPrice pinned prices) /\
  (truthy context = false -> truthy pinned = false ->
   getPriceInfo item context = None) /\
  (context <> Some ""%string ->
   truthy pinned = false \/ truthy context = false \/ pinned = context ->
   getPriceInfo item context = cartPriceInfo context item) /\
  (pinned <> Some ""%string ->
   forall c, cartPriceInfo (Some c) item = spec_priceFor item c).
Proof.
  intros prices pinned.
  refine (conj _ (conj _ (conj (getCartTotal_one_line context item) _)));
    [| |refine (conj _ (conj _ (conj _ (conj _ _))))];
    unfold cartPriceInfo, getPriceInfo, spec_priceFor, js_or; fold prices pinned.
  - intros ->. reflexivity.
  - intros ->. reflexivity.
  - intros Hc. rewrite Hc. simpl. rewrite Hc. reflexivity.
  - intros Hc Hp. rewrite Hc, Hp. simpl. reflexivity.
  - intros Hc Hp. rewrite Hc, Hp. reflexivity.
  - intros Hne Hcases.
    destruct (truthy context) eqn:Hc, (truthy pinned) eqn:Hp; simpl;
      try rewrite Hc; try rewrite Hp; simpl; try reflexivity.
    + destruct Hcases as [H|[H|H]]; try discriminate. now rewrite H.
    + destruct context as [c|]; [|now rewrite findPrice_None].
      simpl in Hc. apply negb_false_iff, String.eqb_eq in Hc.
      subst c. contradiction.
  - intros Hne c. subst pinned.
    destruct (CartItem.platform item) as [q|]; [|reflexivity].
    rewrite truthy_Some; [reflexivity|].
    intros Hq. apply Hne. now rewrite Hq.
Qed.

Lemma price_resolution_of_total_and_of_cart_view_witness :
  cartPriceInfo (Some "X"%string) pinnedEntry
  = Some (PriceInfo.mk "Y"%string 8 false) /\
  getPriceInfo pinnedEntry (Some "X"%string)
  = Some (PriceInfo.mk "X"%string 10 true) /\
  getPriceInfo (CartItem.mk productA 2 None) (Some "X"%string)
  = cartPriceInfo (Some "X"%string) (CartItem.mk productA 2 None).
Proof.
  destruct (price_resolution_of_total_and_of_cart_view pinnedEntry (Some "X"%string))
    as (Hpin & _ & _ & Hctx & _).
  destruct (price_resolution_of_total_and_of_cart_view
              (CartItem.mk productA 2 None) (Some "X"%string))
    as (_ & _ & _ & _ & _ & _ & Hagree & _).
  split; [rewrite Hpin; reflexivity|].
  split; [rewrite Hctx; reflexivity|].
  apply Hagree; [discriminate | left; reflexivity].
Defined.

(** C2, as the spec words it, fails on the spec's own example, a line
    pinned to Y seen under context platform X: the cart view reads X's
    tuple, not Y's, and so differs from what the total reads. *)
Lemma cart_view_ignores_pin_under_filter :
  getPriceInfo pinnedEntry (Some "X"%string)
  = Some (PriceInfo.mk "X"%string 10 true) /\
  spec_priceFor pinnedEntry "X"%string = Some (PriceInfo.mk "Y"%string 8 false) /\
  cartPriceInfo (Some "X"%string) pinnedEntry
  = Some (PriceInfo.mk "Y"%string 8 false) /\
  getPriceInfo pinnedEntry (Some "X"%string)
  <> cartPriceInfo (Some "X"%string) pinnedEntry /\
  ~ (forall item context,
        getPriceInfo item (Some context) = spec_priceFor item context /\
        getPriceInfo item (Some context) = cartPriceInfo (Some context) item).
Proof.
  repeat split; try reflexivity; try discriminate.
  intros H. destruct (H pinnedEntry "X"%string) as [_ H']. discriminate H'.
Qed.

(** ** Prices of unavailable tuples *)

Lemma findPrice_repriced (target : option Platform) (ps ps' : list PriceInfo.t) :
  forall2b repricedTuple ps ps' = true ->
  match findPrice target ps, findPrice target ps' with
  | Some t, Some t' => repricedTuple t t' = true
  | None, None => True
  | _, _ => False
  end.
Proof.
  unfold findPrice. revert ps'.
  induction ps as [|t ps IH]; intros [|t' ps']; cbn [find forall2b];
    try discriminate; auto.
  intros H. apply andb_prop in H as [Ht Hps].
  assert (Hpl : PriceInfo.platform t = PriceInfo.platform t').
  { unfold repricedTuple in Ht.
    apply andb_prop in Ht as [Hpl _]. apply andb_prop in Hpl as [Hpl _].
    now apply String.eqb_eq in Hpl. }
  rewrite <- Hpl.
  destruct (strict_eq (Some (PriceInfo.platform t)) target).
  - exact Ht.
  - apply IH, Hps.
Qed.

Lemma repricedTuple_inv (t t' : PriceInfo.t) :
  repricedTuple t t' = true ->
  PriceInfo.available t = PriceInfo.available t' /\
  (PriceInfo.available t = true -> PriceInfo.price t = PriceInfo.price t').
Proof.
  unfold repricedTuple. intros H.
  apply andb_prop in H as [H Hp]. apply andb_prop in H as [_ Ha].
  apply eqb_prop in Ha. split; [assumption|].
  intros Hav. rewrite Hav in Hp. simpl in Hp. now apply Z.eqb_eq in Hp.
Qed.

Lemma repricedItem_inv (i i' : CartItem.t) :
  repricedItem i i' = true ->
  forall2b repricedTuple (Product.prices (CartItem.product i))
                         (Product.prices (CartItem.product i')) = true /\
  CartItem.quantity i = CartItem.quantity i' /\
  CartItem.platform i = CartItem.platform i'.
Proof.
  unfold repricedItem, repricedProduct. intros H.
  apply andb_prop in H as [H Hpl]. apply andb_prop in H as [H Hq].
  apply andb_prop in H as [_ Hps].
  apply Z.eqb_eq in Hq. apply strict_eq_true in Hpl. auto.
Qed.

Lemma addItem_repriced sel P total (i i' : CartItem.t) :
  repricedItem i i' = true -> addItem sel P total i = addItem sel P total i'.
Proof.
  intros H. apply repricedItem_inv in H as (Hps & Hq & Hpl).
  unfold addItem, cartPriceInfo. rewrite <- Hpl, <- Hq.
  destruct (truthy P && negb (strict_eq (CartItem.platform i) P)); [reflexivity|].
  pose proof (findPrice_repriced (js_or (CartItem.platform i) sel) _ _ Hps) as Hf.
  destruct (findPrice _ (Product.prices (CartItem.product i))) as [t|],
           (findPrice _ (Product.prices (CartItem.product i'))) as [t'|];
    try contradiction; [|reflexivity].
  apply repricedTuple_inv in Hf as [Ha Hp]. rewrite <- Ha.
  destruct (PriceInfo.available t); [|reflexivity].
  now rewrite Hp.
Qed.

Lemma getCartTotal_repriced (cart cart' : list CartItem.t) sel P :
  repricedCart cart cart' = true ->
  getCartTotal cart sel P = getCartTotal cart' sel P.
Proof.
  unfold getCartTotal, repricedCart. generalize 0 as total. revert cart'.
  induction cart as [|i cart IH]; intros [|i' cart'] total; simpl;
    try discriminate; auto.
  intros H. apply andb_prop in H as [Hi Hc].
  rewrite (addItem_repriced sel P total i i' Hi). now apply IH.
Qed.

Lemma areAllItemsAvailable_repriced (cart cart' : list CartItem.t) P :
  repricedCart cart cart' = true ->
  areAllItemsAvailable cart P = areAllItemsAvailable cart' P.
Proof.
  unfold areAllItemsAvailable, repricedCart. revert cart'.
  induction cart as [|i cart IH]; intros [|i' cart']; simpl;
    try discriminate; auto.
  intros H. apply andb_prop in H as [Hi Hc].
  rewrite (IH cart' Hc). f_equal.
  apply repricedItem_inv in Hi as (Hps & _ & _).
  unfold hasAvailablePrice.
  pose proof (findPrice_repriced (Some P) _ _ Hps) as Hf.
  destruct (findPrice _ (Product.prices (CartItem.product i))) as [t|],
           (findPrice _ (Product.prices (CartItem.product i'))) as [t'|];
    try contradiction; [|reflexivity].
  now apply repricedTuple_inv in Hf as [Ha _].
Qed.

Lemma compareResults_shown (a a' b b' : PlatformResult.t) :
  shown a = shown b -> shown a' = shown b' ->
  compareResults a a' = compareResults b b'.
Proof.
  unfold shown, compareResults. intros H H'.
  injection H as _ _ -> ->. injection H' as _ _ -> ->. reflexivity.
Qed.

Lemma Forall2_shown (l l' : list PlatformResult.t) :
  Forall2 (fun r r' => shown r = shown r') l l' -> map shown l = map shown l'.
Proof. induction 1; simpl; congruence. Qed.

(** C8. Changing the price of tuples that are not available changes no
    result of [getCartTotal], and no availability or total of the ranking
    (whose results also come in the same order). *)
Theorem unavailable_prices_do_not_affect_totals (cart cart' : list CartItem.t) :
  repricedCart cart cart' = true ->
  (forall sel P, getCartTotal cart sel P = getCartTotal cart' sel P) /\
  (forall sel platforms,
      map shown (sortedPlatforms cart sel platforms)
      = map shown (sortedPlatforms cart' sel platforms)).
Proof.
  intros H. split.
  - intros sel P. now apply getCartTotal_repriced.
  - intros sel platforms. apply Forall2_shown.
    unfold sortedPlatforms.
    apply arraySort_Forall2.
    + intros a a' b b'. apply compareResults_shown.
    + induction platforms as [|p ps IH]; simpl; constructor; [|exact IH].
      unfold shown; simpl.
      rewrite (areAllItemsAvailable_repriced cart cart' _ H).
      now rewrite (getCartTotal_repriced cart cart' sel _ H).
Qed.

Lemma unavailable_prices_do_not_affect_totals_witness :
  let cart' := [CartItem.mk
                  (Product.mk "A"%string "productA"%string
                     [PriceInfo.mk "X"%string 10 true;
                      PriceInfo.mk "Y"%string 999 false]) 2 None] in
  repricedCart exampleCart cart' = true /\
  getCartTotal exampleCart (Some "Y"%string) None
  = getCartTotal cart' (Some "Y"%string) None.
Proof.
  intros cart'.
  assert (H : repricedCart exampleCart cart' = true) by reflexivity.
  split; [exact H|].
  exact (proj1 (unavailable_prices_do_not_affect_totals exampleCart cart' H)
               (Some "Y"%string) None).
Defined.

(** ** Recomputation *)

Lemma evaluatePlatform_selectedPlatform cart sel sel' (p : PlatformInfo.t) :
  PlatformInfo.id p <> ""%string ->
  evaluatePlatform cart sel p = evaluatePlatform cart sel' p.
Proof.
  intros Hp. unfold evaluatePlatform.
  now rewrite !getCartTotal_pinnedTotal by assumption.
Qed.

Lemma sortedPlatforms_selectedPlatform cart sel sel' platforms :
  namedPlatforms platforms ->
  sortedPlatforms cart sel platforms = sortedPlatforms cart sel' platforms.
Proof.
  intros Hn. unfold sortedPlatforms. f_equal.
  apply map_ext_in. intros p Hp.
  apply evaluatePlatform_selectedPlatform.
  unfold namedPlatforms in Hn. rewrite List.Forall_forall in Hn. auto.
Qed.

Section Memo.
Variable f : list CartItem.t -> list PlatformInfo.t -> list PlatformResult.t.

Lemma useMemo_value cell r v cell' :
  computes f r ->
  cellOk f cell ->
  useMemo cell r v cell' ->
  v = f (Render.cart r) (Render.platforms r) /\ cellOk f cell'.
Proof.
  intros Hf Hok Hm. inversion Hm as [c r' Hp Hc|old r' v']; subst; simpl in *.
  - rewrite <- Hp, <- Hc. auto.
  - split; exact Hf.
Qed.

Lemma renders_values cell rs vs cell' :
  Forall (computes f) rs ->
  cellOk f cell ->
  renders cell rs vs cell' ->
  Forall2 (fun r v => v = f (Render.cart r) (Render.platforms r)) rs vs.
Proof.
  intros Hn Hok Hr. induction Hr as [|cell r v cell' rs vs cell'' Hm Hr IH].
  - constructor.
  - inversion Hn as [|? ? Hn1 Hn2]; subst.
    destruct (useMemo_value _ _ _ _ Hn1 Hok Hm) as [Hv Hok'].
    constructor; auto.
Qed.

End Memo.

Lemma renders_exist cell (rs : list Render.t) :
  exists vs cell', renders cell rs vs cell'.
Proof.
  revert cell. induction rs as [|r rs IH]; intros cell.
  - exists [], cell. constructor.
  - destruct (IH (Some (MemoCell.mk (Render.platforms r) (Render.cart r)
                    (sortedPlatforms (Render.cart r) (Render.selectedPlatform r)
                                     (Render.platforms r)))))
      as (vs & cell' & Hr).
    eexists (_ :: vs), cell'. econstructor; [apply useMemo_compute|exact Hr].
Qed.

Lemma Forall2_nth_error {A B} (R : A -> B -> Prop) (l : list A) (l' : list B) :
  Forall2 R l l' ->
  forall k a b, nth_error l k = Some a -> nth_error l' k = Some b -> R a b.
Proof.
  induction 1 as [|x y l l' Hxy Hrest IH]; intros [|k] a b; simpl;
    try discriminate.
  - intros [= <-] [= <-]. exact Hxy.
  - apply IH.
Qed.

(** C9. The ranking depends on the cart and the platforms alone.  The
    memo cell of [useMemo] does not change it: in every run of renders
    from the mount on, under one selected platform, each render returns
    the ranking of its cart and platforms.  Nor does the selected
    platform, which [getCartTotal] reads from the shop state: platform
    identities being non-empty names, whatever it is at each render, the
    render returns the same ranking, so renders of the same cart and
    platforms return the same value. *)
Theorem evaluate_depends_on_cart_and_platforms_only :
  (forall rs, exists vs cell, renders None rs vs cell) /\
  (forall sel rs vs cell,
      Forall (fun r => Render.selectedPlatform r = sel) rs ->
      renders None rs vs cell ->
      Forall2 (fun r v =>
                 v = sortedPlatforms (Render.cart r) sel (Render.platforms r))
              rs vs) /\
  (forall cart platforms sel sel',
      namedPlatforms platforms ->
      sortedPlatforms cart sel platforms = sortedPlatforms cart sel' platforms) /\
  (forall rs vs cell,
      Forall (fun r => namedPlatforms (Render.platforms r)) rs ->
      renders None rs vs cell ->
      Forall2 (fun r v =>
                 v = sortedPlatforms (Render.cart r) None (Render.platforms r))
              rs vs) /\
  (forall rs vs cell i j r r' v v',
      Forall (fun r => namedPlatforms (Render.platforms r)) rs ->
      renders None rs vs cell ->
      nth_error rs i = Some r -> nth_error vs i = Some v ->
      nth_error rs j = Some r' -> nth_error vs j = Some v' ->
      Render.cart r = Render.cart r' ->
      Render.platforms r = Render.platforms r' ->
      v = v').
Proof.
  assert (Hnamed : forall rs vs cell,
      Forall (fun r => namedPlatforms (Render.platforms r)) rs ->
      renders None rs vs cell ->
      Forall2 (fun r v =>
                 v = sortedPlatforms (Render.cart r) None (Render.platforms r))
              rs vs).
  { intros rs vs cell Hn Hr.
    apply (renders_values (fun c ps => sortedPlatforms c None ps) None rs vs cell);
      [|exact I|exact Hr].
    eapply List.Forall_impl; [|exact Hn]. intros r Hnr.
    unfold computes. now apply sortedPlatforms_selectedPlatform. }
  split; [|split; [|split; [|split]]].
  - intros rs. apply renders_exist.
  - intros sel rs vs cell Hsel Hr.
    apply (renders_values (fun c ps => sortedPlatforms c sel ps) None rs vs cell);
      [|exact I|exact Hr].
    eapply List.Forall_impl; [|exact Hsel]. intros r Hr'.
    unfold computes. now rewrite Hr'.
  - intros. now apply sortedPlatforms_selectedPlatform.
  - exact Hnamed.
  - intros rs vs cell i j r r' v v' Hn Hr Hi Hvi Hj Hvj Hc Hp.
    pose proof (Forall2_nth_error _ _ _ (Hnamed rs vs cell Hn Hr)) as Hnth.
    rewrite (Hnth i r v Hi Hvi), (Hnth j r' v' Hj Hvj), Hc, Hp. reflexivity.
Qed.

Lemma evaluate_depends_on_cart_and_platforms_only_witness :
  let first := Render.mk None [platformX; platformY] exampleCart in
  let again := Render.mk (Some "Y"%string) [platformX; platformY] exampleCart in
  let v := sortedPlatforms exampleCart None [platformX; platformY] in
  sortedPlatforms exampleCart (Some "Y"%string) [platformX; platformY] = v /\
  Forall2 (fun r v' =>
             v' = sortedPlatforms (Render.cart r) None (Render.platforms r))
          [first; again] [v; v].
Proof.
  intros first again v.
  assert (Hn : namedPlatforms [platformX; platformY])
    by (repeat constructor; discriminate).
  destruct evaluate_depends_on_cart_and_platforms_only
    as (_ & _ & Hsel & Hruns & _).
  split.
  - exact (Hsel exampleCart [platformX; platformY] (Some "Y"%string) None Hn).
  - apply (Hruns [first; again] [v; v]
                 (Some (MemoCell.mk [platformX; platformY] exampleCart v))).
    + repeat constructor; discriminate.
    + econstructor; [apply (useMemo_compute None first)|].
      econstructor; [|constructor].
      apply (useMemo_cached (MemoCell.mk [platformX; platformY] exampleCart v) again);
        reflexivity.
Defined.

(** With a platform whose identity is the empty string the total is the
    one of every cart line at its pinned or else the selected platform:
    such a catalog is outside [namedPlatforms]. *)
Lemma unnamed_platform_reads_selectedPlatform :
  let cart := [CartItem.mk
                 (Product.mk "B"%string "productB"%string
                    [PriceInfo.mk ""%string 5 true; PriceInfo.mk "X"%string 10 true])
                 1 None] in
  let unnamed := PlatformInfo.mk ""%string "unnamed"%string in
  map shown (sortedPlatforms cart None [unnamed])
  = [(""%string, "unnamed"%string, true, 0)] /\
  map shown (sortedPlatforms cart (Some "X"%string) [unnamed])
  = [(""%string, "unnamed"%string, true, 10)].
Proof. split; reflexivity. Qed.

(** ** The store *)

Lemma resultValue_mono (st st' : gmap loc Arr) (r : ResultObj.t) v :
  st ⊆ st' -> resultValue st r = Some v -> resultValue st' r = Some v.
Proof.
  unfold resultValue. intros Hsub.
  destruct (st !! ResultObj.unavailableItems r) as [a|] eqn:Hl; [|discriminate].
  rewrite (lookup_weaken _ _ _ _ Hl Hsub). trivial.
Qed.

Lemma resultValues_Forall2 (st : gmap loc Arr) (rs : list ResultObj.t) vs :
  resultValues st rs = Some vs <->
  Forall2 (fun r v => resultValue st r = Some v) rs vs.
Proof.
  revert vs. induction rs as [|r rs IH]; intros vs; simpl.
  - split.
    + intros [= <-]. constructor.
    + intros H. inversion H. reflexivity.
  - split.
    + destruct (resultValue st r) as [v|] eqn:Hr; [|discriminate].
      destruct (resultValues st rs) as [vs'|]; [|discriminate].
      intros [= <-]. constructor; [assumption|]. now apply IH.
    + intros H. inversion H as [|? v ? vs' Hr Hrest]; subst.
      rewrite Hr. apply IH in Hrest. now rewrite Hrest.
Qed.

Lemma resultValues_mono (st st' : gmap loc Arr) (rs : list ResultObj.t) vs :
  st ⊆ st' -> resultValues st rs = Some vs -> resultValues st' rs = Some vs.
Proof.
  intros Hsub. rewrite !resultValues_Forall2.
  intros H. induction H; constructor; eauto using resultValue_mono.
Qed.

Lemma alloc_extends (st : gmap loc Arr) (a : Arr) :
  st !! fresh (dom st) = None /\ st ⊆ <[fresh (dom st) := a]> st.
Proof.
  assert (H : st !! fresh (dom st) = None)
    by (apply not_elem_of_dom, is_fresh).
  split; [exact H|]. now apply insert_subseteq.
Qed.

Lemma evaluatePlatformM_spec (st : gmap loc Arr) (lc : loc) cart sel p :
  st !! lc = Some (CartArr cart) ->
  exists r st',
    evaluatePlatformM lc sel p st = Some (r, st') /\
    st ⊆ st' /\
    resultValue st' r = Some (evaluatePlatform cart sel p).
Proof.
  intros Hc.
  destruct (alloc_extends st
              (CartArr (List.filter (lacksAvailablePrice (PlatformInfo.id p)) cart)))
    as [Hfresh Hsub].
  pose proof (lookup_weaken _ _ _ _ Hc Hsub) as Hc'.
  unfold evaluatePlatformM, getUnavailableItemsM, areAllItemsAvailableM,
    getCartTotalM, cartFilter, cartEvery, cartReduce, bind, readCart, alloc, ret.
  rewrite Hc. cbn beta iota zeta. repeat (rewrite Hc'; cbn beta iota zeta).
  unfold resultValue, evaluatePlatform, areAllItemsAvailable,
    getUnavailableItems, getCartTotal.
  destruct (forallb (hasAvailablePrice (PlatformInfo.id p)) cart) eqn:Hav.
  - rewrite Hc'. eexists _, _. split; [reflexivity|]. split; [exact Hsub|].
    simpl. rewrite lookup_insert_eq. reflexivity.
  - eexists _, _. split; [reflexivity|]. split; [exact Hsub|].
    simpl. rewrite lookup_insert_eq. reflexivity.
Qed.

Lemma forEachM_evaluatePlatformM (lc : loc) cart sel (ps : list PlatformInfo.t) :
  forall st : gmap loc Arr,
    st !! lc = Some (CartArr cart) ->
    exists rs st',
      forEachM (evaluatePlatformM lc sel) ps st = Some (rs, st') /\
      st ⊆ st' /\
      resultValues st' rs = Some (map (evaluatePlatform cart sel) ps).
Proof.
  induction ps as [|p ps IH]; intros st Hc.
  - exists [], st. repeat split; reflexivity.
  - destruct (evaluatePlatformM_spec st lc cart sel p Hc)
      as (r & st1 & Hrun1 & Hsub1 & Hr).
    destruct (IH st1 (lookup_weaken _ _ _ _ Hc Hsub1))
      as (rs & st2 & Hrun2 & Hsub2 & Hrs).
    exists (r :: rs), st2. split; [|split].
    + simpl. unfold bind at 1. rewrite Hrun1.
      unfold bind at 1. rewrite Hrun2. reflexivity.
    + now transitivity st1.
    + simpl. rewrite (resultValue_mono _ _ _ _ Hsub2 Hr), Hrs. reflexivity.
Qed.

Lemma compareResultObjs_value (st : gmap loc Arr) a a' b b' :
  resultValue st a = Some b -> resultValue st a' = Some b' ->
  compareResultObjs a a' = compareResults b b'.
Proof.
  unfold resultValue. intros Ha Ha'.
  destruct (st !! ResultObj.unavailableItems a) as [[items| |]|]; try discriminate.
  destruct (st !! ResultObj.unavailableItems a') as [[items'| |]|]; try discriminate.
  injection Ha as <-. injection Ha' as <-. reflexivity.
Qed.

(** C10. Run on a store holding the cart and the platforms, the
    computation returns a new array that holds the ranking, and leaves
    every array that was in the store, the cart and the platforms among
    them, as it was: the array that [sort] writes is the one [map] has
    just made. *)
Theorem evaluate_leaves_cart_and_platforms_unchanged
  (st : gmap loc Arr) (lc lp : loc)
  (cart : list CartItem.t) (platforms : list PlatformInfo.t)
  (sel : option Platform) :
  st !! lc = Some (CartArr cart) ->
  st !! lp = Some (PlatformArr platforms) ->
  exists (ranked : loc) (st' : gmap loc Arr) (rs : list ResultObj.t),
    sortedPlatformsM lc sel lp st = Some (ranked, st') /\
    st' !! lc = Some (CartArr cart) /\
    st' !! lp = Some (PlatformArr platforms) /\
    (forall l, l ∈ dom st -> st' !! l = st !! l) /\
    (ranked ∉ dom st) /\
    st' !! ranked = Some (ResultArr rs) /\
    resultValues st' rs = Some (sortedPlatforms cart sel platforms).
Proof.
  intros Hc Hp.
  destruct (forEachM_evaluatePlatformM lc cart sel platforms st Hc)
    as (rs & st1 & Hrun & Hsub & Hrs).
  destruct (alloc_extends st1 (ResultArr rs)) as [Hfresh Hsub1].
  set (lm := fresh (dom st1)) in *.
  set (sorted := arraySort compareResultObjs rs).
  assert (Hsub2 : st1 ⊆ <[lm := ResultArr sorted]> st1)
    by now apply insert_subseteq.
  assert (Hsub' : st ⊆ <[lm := ResultArr sorted]> st1)
    by now transitivity st1.
  exists lm, (<[lm := ResultArr sorted]> st1), sorted.
  split; [|split; [|split; [|split; [|split; [|split]]]]].
  - unfold sortedPlatformsM, platformsMap, resultsSort, readPlatforms,
      readResults, writeResults, alloc, ret.
    unfold bind at 1. unfold bind at 1. rewrite Hp. cbn beta iota zeta.
    unfold bind at 1. rewrite Hrun. cbn beta iota zeta. fold lm.
    unfold bind. rewrite lookup_insert_eq. cbn beta iota zeta.
    rewrite insert_insert_eq. reflexivity.
  - exact (lookup_weaken _ _ _ _ Hc Hsub').
  - exact (lookup_weaken _ _ _ _ Hp Hsub').
  - intros l Hl. apply elem_of_dom in Hl as [a Ha].
    rewrite Ha. exact (lookup_weaken _ _ _ _ Ha Hsub').
  - intros Hin. apply elem_of_dom in Hin as [a Ha].
    rewrite (lookup_weaken _ _ _ _ Ha Hsub) in Hfresh. discriminate.
  - apply lookup_insert_eq.
  - apply resultValues_Forall2.
    apply (resultValues_mono _ _ _ _ Hsub2), resultValues_Forall2 in Hrs.
    unfold sortedPlatforms, sorted.
    apply arraySort_Forall2; [|exact Hrs].
    intros a a' b b'. apply compareResultObjs_value.
Qed.

Lemma evaluate_leaves_cart_and_platforms_unchanged_witness :
  let st : gmap loc Arr :=
    <[1%positive := CartArr exampleCart]>
      (<[2%positive := PlatformArr [platformX; platformY]]> ∅) in
  st !! 1%positive = Some (CartArr exampleCart) /\
  st !! 2%positive = Some (PlatformArr [platformX; platformY]) /\
  exists ranked st' rs,
    sortedPlatformsM 1%positive None 2%positive st = Some (ranked, st') /\
    st' !! 1%positive = Some (CartArr exampleCart) /\
    st' !! 2%positive = Some (PlatformArr [platformX; platformY]) /\
    (forall l, l ∈ dom st -> st' !! l = st !! l) /\
    (ranked ∉ dom st) /\
    st' !! ranked = Some (ResultArr rs) /\
    resultValues st' rs
    = Some (sortedPlatforms exampleCart None [platformX; platformY]).
Proof.
  intros st.
  assert (Hc : st !! 1%positive = Some (CartArr exampleCart))
    by (vm_compute; reflexivity).
  assert (Hp : st !! 2%positive = Some (PlatformArr [platformX; platformY]))
    by (vm_compute; reflexivity).
  split; [exact Hc|]. split; [exact Hp|].
  exact (evaluate_leaves_cart_and_platforms_unchanged
           st 1%positive 2%positive exampleCart [platformX; platformY] None Hc Hp).
Defined.

(** * Further properties of the comparison *)

Lemma bestPlatform_head cart sel platforms best :
  bestPlatform cart sel platforms = Some best ->
  PlatformResult.available best = true /\
  exists after, sortedPlatforms cart sel platforms = best :: after.
Proof.
  unfold bestPlatform. intros Hb.
  pose proof (find_first PlatformResult.available
                (sortedPlatforms cart sel platforms)) as Hf.
  rewrite Hb in Hf. destruct Hf as (before & after & Heq & Hav & Hbefore).
  split; [exact Hav|].
  destruct before as [|r before]; [eauto|].
  exfalso. inversion Hbefore as [|? ? Hr _]; subst.
  change ((r :: before) ++ best :: after)
    with ([] ++ r :: before ++ best :: after) in Heq.
  apply sortedPlatforms_order in Heq as [Himp _].
  rewrite Himp in Hr by assumption. discriminate.
Qed.

(** X1. The ranking holds one result for each platform of the input, with
    its id and name, duplicates included: results are neither dropped nor
    added. *)
Theorem ranking_lists_every_platform_once
  (cart : list CartItem.t) (sel : option Platform)
  (platforms : list PlatformInfo.t) :
  Permutation
    (map (fun r => (PlatformResult.id r, PlatformResult.name r))
         (sortedPlatforms cart sel platforms))
    (map (fun p => (PlatformInfo.id p, PlatformInfo.name p)) platforms) /\
  length (sortedPlatforms cart sel platforms) = length platforms.
Proof.
  pose proof (sortedPlatforms_perm cart sel platforms) as Hp. split.
  - rewrite Hp, map_map. reflexivity.
  - rewrite (Permutation_length Hp). apply length_map.
Qed.

(** X2. The best deal is the cheapest: its total is at most the total of
    every available result of the ranking. *)
Theorem bestPlatform_has_least_total
  (cart : list CartItem.t) (sel : option Platform)
  (platforms : list PlatformInfo.t) (best r : PlatformResult.t) :
  bestPlatform cart sel platforms = Some best ->
  In r (sortedPlatforms cart sel platforms) ->
  PlatformResult.available r = true ->
  PlatformResult.total best <= PlatformResult.total r.
Proof.
  intros Hb Hr Hav.
  destruct (bestPlatform_head _ _ _ _ Hb) as [Hbest [after Heq]].
  rewrite Heq in Hr. destruct Hr as [<-|Hr]; [lia|].
  apply in_split in Hr as (l1 & l2 & ->).
  change (best :: l1 ++ r :: l2) with ([] ++ best :: l1 ++ r :: l2) in Heq.
  apply sortedPlatforms_order in Heq as [_ Hle]. auto.
Qed.

Lemma bestPlatform_has_least_total_witness :
  let both := Product.mk "B"%string "productB"%string
                [PriceInfo.mk "X"%string 7 true; PriceInfo.mk "Y"%string 3 true] in
  let cart := [CartItem.mk both 2 (Some "X"%string);
               CartItem.mk both 1 (Some "Y"%string)] in
  let x := PlatformResult.mk "X"%string "X"%string [] true 14 in
  let y := PlatformResult.mk "Y"%string "Y"%string [] true 3 in
  bestPlatform cart None [platformX; platformY] = Some y /\
  PlatformResult.total y <= PlatformResult.total x.
Proof.
  intros both cart x y.
  assert (Hb : bestPlatform cart None [platformX; platformY] = Some y)
    by reflexivity.
  split; [exact Hb|].
  apply (bestPlatform_has_least_total cart None [platformX; platformY] y x Hb).
  - vm_compute. right. left. reflexivity.
  - reflexivity.
Defined.

(** ** The sentinel total *)

Lemma findPrice_In (target : option Platform) (prices : list PriceInfo.t) t :
  findPrice target prices = Some t -> In t prices.
Proof. unfold findPrice. intros H. now apply find_some in H as [H _]. Qed.

Lemma addItem_from_zero sel P (total : Z) (item : CartItem.t) :
  addItem sel P total item = total + addItem sel P 0 item.
Proof.
  unfold addItem.
  destruct (truthy P && negb (strict_eq (CartItem.platform item) P)); [lia|].
  destruct (cartPriceInfo sel item) as [t|]; [|lia].
  destruct (PriceInfo.available t); lia.
Qed.

Lemma getCartTotal_sum cart sel P :
  getCartTotal cart sel P = sumZ (map (addItem sel P 0) cart).
Proof.
  unfold getCartTotal, sumZ.
  rewrite (fold_left_add (addItem sel P 0)); [lia|].
  intros. apply addItem_from_zero.
Qed.

Lemma addItem_nonneg sel P (item : CartItem.t) :
  nonNegativeItem item -> 0 <= addItem sel P 0 item.
Proof.
  intros [Hq Hp]. unfold addItem.
  destruct (truthy P && negb (strict_eq (CartItem.platform item) P)); [lia|].
  unfold cartPriceInfo.
  destruct (findPrice _ _) as [t|] eqn:Hf; [|lia].
  destruct (PriceInfo.available t); [|lia].
  apply findPrice_In in Hf. rewrite List.Forall_forall in Hp.
  specialize (Hp t Hf). nia.
Qed.

Lemma getCartTotal_nonneg cart sel P :
  Forall nonNegativeItem cart -> 0 <= getCartTotal cart sel P.
Proof.
  intros H. rewrite getCartTotal_sum. unfold sumZ.
  induction H as [|item cart Hi _ IH]; simpl; [lia|].
  pose proof (addItem_nonneg sel P item Hi). lia.
Qed.

(** X3. When no price and no quantity of the cart is negative, the total
    of an available platform is not negative, so the total -1 marks the
    platforms that are not available, and only them. *)
Theorem sentinel_total_marks_unavailable
  (cart : list CartItem.t) (sel : option Platform)
  (platforms : list PlatformInfo.t) :
  Forall nonNegativeItem cart ->
  Forall (fun r =>
            (PlatformResult.available r = true -> 0 <= PlatformResult.total r) /\
            (PlatformResult.total r = -1 <-> PlatformResult.available r = false))
         (sortedPlatforms cart sel platforms).
Proof.
  intros Hnn. apply List.Forall_forall. intros r Hr.
  apply sortedPlatforms_In in Hr as (p & _ & ->). simpl.
  pose proof (getCartTotal_nonneg cart sel (Some (PlatformInfo.id p)) Hnn) as H0.
  destruct (areAllItemsAvailable cart (PlatformInfo.id p)).
  - split; [auto|]. split; [lia|discriminate].
  - split; [discriminate|]. split; reflexivity.
Qed.

Lemma sentinel_total_marks_unavailable_witness :
  Forall nonNegativeItem exampleCart /\
  Forall (fun r =>
            (PlatformResult.available r = true -> 0 <= PlatformResult.total r) /\
            (PlatformResult.total r = -1 <-> PlatformResult.available r = false))
         (sortedPlatforms exampleCart None [platformX; platformY]).
Proof.
  assert (H : Forall nonNegativeItem exampleCart).
  { repeat constructor; simpl; lia. }
  split; [exact H|].
  exact (sentinel_total_marks_unavailable exampleCart None [platformX; platformY] H).
Defined.

(** Without that, an available platform can have the total -1. *)
Lemma negative_price_gives_sentinel_total :
  map shown
    (sortedPlatforms
       [CartItem.mk (Product.mk "R"%string "refund"%string
                       [PriceInfo.mk "X"%string (-1) true]) 1 (Some "X"%string)]
       None [platformX])
  = [("X"%string, "X"%string, true, -1)].
Proof. reflexivity. Qed.

(** ** The best deal badge *)

Lemma sortedPlatforms_ids cart sel platforms :
  Permutation (map PlatformResult.id (sortedPlatforms cart sel platforms))
              (map PlatformInfo.id platforms).
Proof.
  rewrite (sortedPlatforms_perm cart sel platforms), map_map. reflexivity.
Qed.

Lemma filter_none {A} (f : A -> bool) (l : list A) :
  (forall x, In x l -> f x = false) -> List.filter f l = [].
Proof.
  induction l as [|x l IH]; simpl; intros H; [reflexivity|].
  rewrite (H x) by now left. apply IH. intros y Hy. apply H. now right.
Qed.

(** X4. When the platforms of the catalog have distinct ids, the rows of
    the ranking that carry the "Best Deal" badge are the best deal alone,
    and none when there is no best deal. *)
Theorem best_deal_badge_on_one_row
  (cart : list CartItem.t) (sel : option Platform)
  (platforms : list PlatformInfo.t) :
  List.NoDup (map PlatformInfo.id platforms) ->
  List.filter (isBestDeal (bestPlatform cart sel platforms))
              (sortedPlatforms cart sel platforms)
  = match bestPlatform cart sel platforms with
    | Some best => [best]
    | None => []
    end.
Proof.
  intros Hnd.
  destruct (bestPlatform cart sel platforms) as [best|] eqn:Hb.
  - destruct (bestPlatform_head _ _ _ _ Hb) as [_ [after Heq]].
    assert (Hnd' : List.NoDup (map PlatformResult.id (sortedPlatforms cart sel platforms))).
    { eapply Permutation_NoDup; [|exact Hnd].
      symmetry. apply sortedPlatforms_ids. }
    rewrite Heq in *. simpl in *. rewrite String.eqb_refl. f_equal.
    apply filter_none. intros r Hr.
    apply String.eqb_neq. intros Hid.
    inversion Hnd' as [|? ? Hnotin _]; subst. apply Hnotin.
    rewrite <- Hid. now apply in_map.
  - apply filter_none. reflexivity.
Qed.

Lemma best_deal_badge_on_one_row_witness :
  List.NoDup (map PlatformInfo.id [platformY; platformX]) /\
  List.filter (isBestDeal (bestPlatform exampleCart None [platformY; platformX]))
              (sortedPlatforms exampleCart None [platformY; platformX])
  = [PlatformResult.mk "X"%string "X"%string [] true 0].
Proof.
  assert (H : List.NoDup (map PlatformInfo.id [platformY; platformX])).
  { constructor; [|constructor; [|constructor]]; simpl.
    - intros [H|[]]. discriminate.
    - intros []. }
  split; [exact H|].
  exact (best_deal_badge_on_one_row exampleCart None [platformY; platformX] H).
Defined.

(** ** Totals of parts of the cart and of platforms *)













(** ** The unavailable items of a row *)

Lemma filter_sublist {A} (f : A -> bool) (l : list A) :
  sublist (List.filter f l) l.
Proof.
  induction l as [|x l IH]; simpl.
  - constructor.
  - destruct (f x); now constructor.
Qed.

(** X7. The unavailable items of a result are cart lines in the order of
    the cart, and the number shown on a row that is not available
    ("N unavailable items") is at least 1 and at most the number of lines
    of the cart. *)
Theorem unavailable_items_are_cart_lines
  (cart : list CartItem.t) (sel : option Platform)
  (platforms : list PlatformInfo.t) :
  Forall (fun r =>
            sublist (PlatformResult.unavailableItems r) cart /\
            (PlatformResult.available r = false ->
             (1 <= length (PlatformResult.unavailableItems r) <= length cart)%nat))
         (sortedPlatforms cart sel platforms).
Proof.
  apply List.Forall_forall. intros r Hr.
  apply sortedPlatforms_In in Hr as (p & _ & ->). simpl.
  pose proof (filter_sublist (lacksAvailablePrice (PlatformInfo.id p)) cart) as Hs.
  split; [exact Hs|]. intros Hav.
  split; [|now apply sublist_length].
  destruct (getUnavailableItems cart (PlatformInfo.id p)) eqn:Hu; simpl; [|lia].
  apply areAllItemsAvailable_iff in Hu. congruence.
Qed.

(** * The cart view and the comparison *)

Lemma getPriceInfo_filter (item : CartItem.t) (P : Platform) :
  P <> ""%string ->
  getPriceInfo item (Some P)
  = findPrice (Some P) (Product.prices (CartItem.product item)).
Proof.
  intros HP. pose proof (truthy_Some P HP) as HT.
  unfold getPriceInfo, js_or. cbv zeta. rewrite HT. cbv iota.
  rewrite HT. reflexivity.
Qed.

Lemma getPriceInfo_pinned (item : CartItem.t) :
  truthy (CartItem.platform item) = true ->
  getPriceInfo item None
  = findPrice (CartItem.platform item) (Product.prices (CartItem.product item)).
Proof.
  intros Hp. unfold getPriceInfo, js_or. cbv zeta.
  change (truthy None) with false. cbv iota. rewrite Hp. reflexivity.
Qed.

Lemma showUnavailableWarning_lacks (item : CartItem.t) (P : Platform) :
  P <> ""%string ->
  showUnavailableWarning item (Some P) = lacksAvailablePrice P item.
Proof.
  intros HP. unfold showUnavailableWarning, isAvailable, lacksAvailablePrice.
  rewrite (getPriceInfo_filter item P HP), (truthy_Some P HP).
  now destruct (findPrice _ _).
Qed.

(** X8. Under a platform filter, the cart lines that show the warning
    "Not available on P" are the unavailable items the comparison lists
    for P, so P is available in the comparison exactly when no line of the
    cart warns; without a filter no line warns. *)
Theorem cart_view_warns_on_the_unavailable_items
  (cart : list CartItem.t) (P : Platform) :
  P <> ""%string ->
  List.filter (fun item => showUnavailableWarning item (Some P)) cart
  = getUnavailableItems cart P /\
  (areAllItemsAvailable cart P = true <->
   Forall (fun item => showUnavailableWarning item (Some P) = false) cart) /\
  Forall (fun item => showUnavailableWarning item None = false) cart.
Proof.
  intros HP. split; [|split].
  - unfold getUnavailableItems. apply filter_ext. intros item.
    now apply showUnavailableWarning_lacks.
  - unfold areAllItemsAvailable. rewrite forallb_forall, List.Forall_forall.
    split; intros H item Hin; specialize (H item Hin).
    + rewrite (showUnavailableWarning_lacks item P HP), lacks_not_has, H.
      reflexivity.
    + rewrite (showUnavailableWarning_lacks item P HP), lacks_not_has in H.
      now apply negb_false_iff in H.
  - apply List.Forall_forall. reflexivity.
Qed.

Lemma cart_view_warns_on_the_unavailable_items_witness :
  let cart := [pinnedEntry; CartItem.mk productA 1 (Some "X"%string)] in
  "Y"%string <> ""%string /\
  List.filter (fun item => showUnavailableWarning item (Some "Y"%string)) cart
  = getUnavailableItems cart "Y"%string /\
  getUnavailableItems cart "Y"%string = cart.
Proof.
  intros cart.
  assert (HP : "Y"%string <> ""%string) by discriminate.
  split; [exact HP|]. split.
  - exact (proj1 (cart_view_warns_on_the_unavailable_items cart "Y"%string HP)).
  - reflexivity.
Defined.

Lemma addItem_shownAmount_filter sel (P : Platform) (item : CartItem.t) :
  P <> ""%string ->
  addItem sel (Some P) 0 item
  = if strict_eq (CartItem.platform item) (Some P)
    then default 0 (shownAmount item (Some P)) else 0.
Proof.
  intros HP. rewrite (addItem_pinnedCost sel P 0 item HP).
  unfold pinnedCost, shownAmount. rewrite (getPriceInfo_filter item P HP).
  destruct (strict_eq (CartItem.platform item) (Some P)); [|reflexivity].
  destruct (findPrice _ _) as [t|]; [|reflexivity].
  destruct (PriceInfo.available t); reflexivity.
Qed.

Lemma addItem_shownAmount_pinned sel (item : CartItem.t) :
  truthy (CartItem.platform item) = true ->
  addItem sel None 0 item = default 0 (shownAmount item None).
Proof.
  intros Hp. unfold addItem, cartPriceInfo, shownAmount, js_or.
  rewrite (getPriceInfo_pinned item Hp), Hp. simpl.
  destruct (findPrice _ _) as [t|]; [|reflexivity].
  destruct (PriceInfo.available t); reflexivity.
Qed.

(** X9. The totals are sums of amounts that the cart view shows, a line
    marked "Not Available" counting for nothing: the total of a platform P
    is the sum of the amounts shown under the filter P on the lines pinned
    to P, and when every line is pinned the total of the cart is the sum of
    the amounts shown without a filter. *)
Theorem totals_are_sums_of_shown_amounts
  (cart : list CartItem.t) (sel : option Platform) :
  (forall P : Platform,
      P <> ""%string ->
      getCartTotal cart sel (Some P)
      = sumZ (map (fun item =>
                     if strict_eq (CartItem.platform item) (Some P)
                     then default 0 (shownAmount item (Some P)) else 0) cart)) /\
  (Forall (fun item => truthy (CartItem.platform item) = true) cart ->
   getCartTotal cart sel None
   = sumZ (map (fun item => default 0 (shownAmount item None)) cart)).
Proof.
  split.
  - intros P HP. rewrite getCartTotal_sum. f_equal.
    apply map_ext. intros item. now apply addItem_shownAmount_filter.
  - intros Hp. rewrite getCartTotal_sum. f_equal.
    apply map_ext_in. intros item Hin. rewrite List.Forall_forall in Hp.
    apply addItem_shownAmount_pinned. auto.
Qed.

Lemma totals_are_sums_of_shown_amounts_witness :
  let cart := [CartItem.mk productA 3 (Some "X"%string); pinnedEntry] in
  getCartTotal cart None (Some "X"%string) = 30 /\
  getCartTotal cart None None = 30 /\
  map (fun item => shownAmount item None) cart = [Some 30; None].
Proof.
  intros cart.
  destruct (totals_are_sums_of_shown_amounts cart None) as [Hf Hp].
  assert (HX : "X"%string <> ""%string) by discriminate.
  assert (Hpin : Forall (fun item => truthy (CartItem.platform item) = true) cart)
    by (repeat constructor).
  split; [|split].
  - exact (eq_trans (Hf "X"%string HX) eq_refl).
  - exact (eq_trans (Hp Hpin) eq_refl).
  - reflexivity.
Defined.

(** A line that is not pinned is counted in the total of the cart at the
    selected platform, while the cart view without a filter shows it as
    "Not Available". *)
Lemma unpinned_line_counted_but_shown_not_available :
  getCartTotal exampleCart (Some "X"%string) None = 20 /\
  map (fun item => shownAmount item None) exampleCart = [None].
Proof. split; reflexivity. Qed.

(** * Pagination *)

Lemma In_pagesFromTo (a b n : Z) : In n (pagesFromTo a b) <-> a <= n <= b.
Proof.
  unfold pagesFromTo. rewrite in_map_iff. split.
  - intros (i & <- & Hi). apply in_seq in Hi. lia.
  - intros H. exists (Z.to_nat (n - a)). split; [lia|].
    apply in_seq. lia.
Qed.



(** X10. The page numbers of Index.tsx ([getPageNumbers]) and those of
    ProductPagination ([Array.from] with its index formula) are the same
    list, for every number of pages and every current page. *)
Theorem page_numbers_of_both_pagers_agree (totalPages currentPage : Z) :
  getPageNumbers totalPages currentPage = pageNumbersFrom totalPages currentPage.
Proof.
  unfold getPageNumbers, pageNumbersFrom, pageNumberAt, pagesFromTo.
  destruct (totalPages <=? 5) eqn:H5.
  - apply Z.leb_le in H5.
    replace (Z.to_nat (totalPages - 1 + 1)) with (Z.to_nat (Z.min 5 totalPages))
      by lia.
    apply map_ext. intros i. lia.
  - apply Z.leb_gt in H5.
    replace (Z.to_nat (Z.min 5 totalPages)) with 5%nat by lia.
    destruct (currentPage <=? 3) eqn:H3.
    + apply map_ext. intros i. lia.
    + replace (currentPage >=? totalPages - 2)
        with (currentPage + 2 >=? totalPages) by lia.
      destruct (currentPage + 2 >=? totalPages).
      * replace (Z.to_nat (totalPages - (totalPages - 4) + 1)) with 5%nat by lia.
        reflexivity.
      * replace (Z.to_nat (currentPage + 2 - (currentPage - 2) + 1))
          with 5%nat by lia.
        reflexivity.
Qed.

Lemma getPageNumbers_window (totalPages currentPage : Z) :
  exists first last,
    getPageNumbers totalPages currentPage = pagesFromTo first last /\
    (1 <= totalPages -> 1 <= first /\ last <= totalPages /\
                        last - first + 1 = Z.min 5 totalPages) /\
    (1 <= currentPage <= totalPages -> first <= currentPage <= last).
Proof.
  unfold getPageNumbers.
  destruct (totalPages <=? 5) eqn:H5;
    [|destruct (currentPage <=? 3) eqn:H3;
      [|destruct (currentPage + 2 >=? totalPages) eqn:H2]];
    eexists _, _; (split; [reflexivity|]); lia.
Qed.





Lemma mathCeilDiv_bounds (a b : Z) :
  0 < b ->
  b * (mathCeilDiv a b - 1) < a <= b * mathCeilDiv a b.
Proof.
  intros Hb. unfold mathCeilDiv.
  pose proof (Z.div_mod (- a) b ltac:(lia)) as Hd.
  pose proof (Z.mod_pos_bound (- a) b Hb) as Hm. lia.
Qed.

Lemma totalPages_bounds {A} (l : list A) :
  0 <= totalPages l /\
  20 * (totalPages l - 1) < Z.of_nat (length l) <= 20 * totalPages l.
Proof.
  unfold totalPages.
  pose proof (mathCeilDiv_bounds (Z.of_nat (length l)) productsPerPage
                ltac:(reflexivity)) as H.
  unfold productsPerPage in *. lia.
Qed.

Lemma firstn_beyond {A} (n m : nat) (l : list A) :
  (length l <= n)%nat -> (length l <= m)%nat -> firstn n l = firstn m l.
Proof. intros Hn Hm. now rewrite !List.firstn_all2. Qed.

Lemma firstn_plus {A} (n m : nat) (l : list A) :
  firstn (n + m) l = firstn n l ++ firstn m (skipn n l).
Proof.
  revert l. induction n as [|n IH]; intros l; simpl; [reflexivity|].
  destruct l as [|x l]; simpl.
  - now destruct m.
  - now rewrite IH.
Qed.

Lemma currentProducts_page {A} (l : list A) (p : Z) :
  1 <= p ->
  currentProducts l p = firstn 20 (skipn (Z.to_nat (20 * (p - 1))) l).
Proof.
  intros Hp. unfold currentProducts, arraySlice, sliceIndex, productsPerPage.
  cbv zeta.
  replace (p * 20 - 20 <? 0) with false by lia.
  replace (p * 20 <? 0) with false by lia.
  set (len := Z.of_nat (length l)).
  destruct (Z_le_gt_dec (p * 20 - 20) len) as [Hle|Hgt].
  - replace (Z.to_nat (Z.min (p * 20 - 20) len)) with (Z.to_nat (20 * (p - 1)))
      by lia.
    set (k := Z.to_nat (20 * (p - 1))).
    assert (Hlen : length (skipn k l) = (length l - k)%nat)
      by apply List.length_skipn.
    destruct (Z_le_gt_dec (p * 20) len) as [Hle'|Hgt'].
    + f_equal. lia.
    + apply firstn_beyond; lia.
  - rewrite !List.skipn_all2 by lia. now rewrite !List.firstn_nil.
Qed.

(** X13. Page p (from 1 on) shows the twenty products that follow the
    first 20·(p−1) ones, or those that are left of them: its j-th product
    is product number 20·(p−1)+j of the list, for j below 20. *)
Theorem page_shows_its_twenty_products {A} (l : list A) (p : Z) :
  1 <= p ->
  currentProducts l p = firstn 20 (skipn (Z.to_nat (20 * (p - 1))) l) /\
  forall j : nat,
    nth_error (currentProducts l p) j
    = if (j <? 20)%nat then nth_error l (Z.to_nat (20 * (p - 1)) + j) else None.
Proof.
  intros Hp. split; [now apply currentProducts_page|].
  intros j. rewrite (currentProducts_page l p Hp).
  rewrite List.nth_error_firstn, List.nth_error_skipn. reflexivity.
Qed.

Lemma page_shows_its_twenty_products_witness :
  1 <= 3 /\
  currentProducts (seq 0 45) 3 = [40; 41; 42; 43; 44]%nat /\
  nth_error (currentProducts (seq 0 45) 3) 4 = nth_error (seq 0 45) 44.
Proof.
  assert (H : 1 <= 3) by lia.
  split; [exact H|]. split; [reflexivity|].
  exact (proj2 (page_shows_its_twenty_products (seq 0 45) 3 H) 4%nat).
Defined.

Lemma pages_up_to {A} (l : list A) (n : nat) :
  concat (map (fun i => currentProducts l (1 + Z.of_nat i)) (seq 0 n))
  = firstn (20 * n) l.
Proof.
  induction n as [|n IH].
  - reflexivity.
  - rewrite seq_S, map_app, concat_app, IH. cbn [map concat Nat.add].
    rewrite app_nil_r.
    rewrite (currentProducts_page l (1 + Z.of_nat n)) by lia.
    replace (Z.to_nat (20 * (1 + Z.of_nat n - 1))) with (20 * n)%nat by lia.
    replace (20 * S n)%nat with (20 * n + 20)%nat by lia.
    now rewrite firstn_plus.
Qed.

(** X14. The pages 1 to [totalPages], one after the other, are the list
    of products: every product is on one page, in the order of the
    list. *)
Theorem pages_partition_the_products {A} (l : list A) :
  concat (map (currentProducts l) (pagesFromTo 1 (totalPages l))) = l.
Proof.
  unfold pagesFromTo. rewrite map_map.
  replace (totalPages l - 1 + 1) with (totalPages l) by lia.
  rewrite pages_up_to. apply List.firstn_all2.
  pose proof (totalPages_bounds l). lia.
Qed.

(** X15. Every page has at most twenty products; each page before the
    last has twenty, the last page has the rest, at least one; a page
    after the last has none, and this is what is shown when the list gets
    shorter while the current page stays. *)
Theorem page_sizes {A} (l : list A) (p : Z) :
  (length (currentProducts l p) <= 20)%nat /\
  (1 <= p < totalPages l -> length (currentProducts l p) = 20%nat) /\
  (1 <= p -> p = totalPages l ->
   Z.of_nat (length (currentProducts l p)) = Z.of_nat (length l) - 20 * (p - 1) /\
   (1 <= length (currentProducts l p))%nat) /\
  (totalPages l < p -> currentProducts l p = []).
Proof.
  pose proof (totalPages_bounds l) as Hb.
  assert (Hlen : 1 <= p ->
            length (currentProducts l p)
            = Nat.min 20 (length l - Z.to_nat (20 * (p - 1)))).
  { intros Hp. rewrite (currentProducts_page l p Hp).
    now rewrite List.length_firstn, List.length_skipn. }
  split; [|split; [|split]].
  - unfold currentProducts, arraySlice.
    cbv zeta. etransitivity; [apply List.firstn_le_length|].
    unfold sliceIndex, productsPerPage.
    destruct (p * 20 - 20 <? 0) eqn:H1, (p * 20 <? 0) eqn:H2; lia.
  - intros Hp. rewrite Hlen by lia. lia.
  - intros Hp ->. rewrite Hlen by lia. lia.
  - intros Hp. apply length_zero_iff_nil. rewrite Hlen by lia. lia.
Qed.

Lemma page_sizes_witness :
  1 <= 2 < totalPages (seq 0 45) /\ length (currentProducts (seq 0 45) 2) = 20%nat /\
  currentProducts (seq 0 45) 4 = [].
Proof.
  assert (H : 1 <= 2 < totalPages (seq 0 45)) by (vm_compute; split; congruence).
  assert (H' : totalPages (seq 0 45) < 4) by reflexivity.
  destruct (page_sizes (seq 0 45) 2) as (_ & H20 & _).
  destruct (page_sizes (seq 0 45) 4) as (_ & _ & _ & Hnone).
  split; [exact H|]. split; [exact (H20 H)|exact (Hnone H')].
Defined.

(** X16. There is no page exactly when there is no product, and otherwise
    the number of pages is the least number of pages of twenty that hold
    the list. *)
Theorem totalPages_is_least_cover {A} (l : list A) :
  (totalPages l = 0 <-> l = []) /\
  0 <= totalPages l /\
  Z.of_nat (length l) <= 20 * totalPages l /\
  forall n, Z.of_nat (length l) <= 20 * n -> totalPages l <= n.
Proof.
  pose proof (totalPages_bounds l) as Hb.
  split; [|split; [|split]].
  - split.
    + intros H0. apply length_zero_iff_nil. lia.
    + intros ->. reflexivity.
  - lia.
  - lia.
  - intros n Hn. lia.
Qed.

Lemma totalPages_is_least_cover_witness :
  Z.of_nat (length (seq 0 45)) <= 20 * 3 /\ totalPages (seq 0 45) <= 3.
Proof.
  assert (H : Z.of_nat (length (seq 0 45)) <= 20 * 3) by (vm_compute; congruence).
  split; [exact H|].
  destruct (totalPages_is_least_cover (seq 0 45)) as (_ & _ & _ & Hleast).
  exact (Hleast 3 H).
Defined.

(** ** The pagination bar *)

Lemma click_within (totalPages currentPage : Z) (b : Button) :
  1 <= currentPage <= totalPages ->
  canClick totalPages currentPage b = true ->
  1 <= click totalPages currentPage b <= totalPages.
Proof.
  intros Hc Hb. unfold canClick in Hb. apply andb_prop in Hb as [Ht Hb].
  destruct b as [| |n|]; simpl.
  - unfold prevPage. destruct (currentPage >? 1) eqn:H; lia.
  - unfold nextPage. destruct (currentPage <? totalPages) eqn:H; lia.
  - apply existsb_exists in Hb as (m & Hm & Hnm). apply Z.eqb_eq in Hnm. subst m.
    destruct (getPageNumbers_window totalPages currentPage)
      as (first & last & Heq & Hbd & _).
    rewrite Heq in Hm. apply In_pagesFromTo in Hm. lia.
  - lia.
Qed.

Lemma clicks_next (totalPages : Z) (d : nat) :
  forall currentPage,
    1 <= currentPage -> currentPage + Z.of_nat d <= totalPages ->
    clicks totalPages currentPage (repeat NextButton d)
    = Some (currentPage + Z.of_nat d).
Proof.
  induction d as [|d IH]; intros cp H1 H2; simpl repeat; cbn [clicks].
  - f_equal. lia.
  - unfold canClick, click, nextPage.
    replace (totalPages >? 1) with true by lia.
    replace (cp =? totalPages) with false by lia.
    replace (cp <? totalPages) with true by lia.
    cbn [andb negb]. rewrite IH by lia. f_equal. lia.
Qed.

Lemma clicks_prev (totalPages : Z) (d : nat) :
  forall currentPage,
    currentPage <= totalPages -> 1 <= currentPage - Z.of_nat d ->
    clicks totalPages currentPage (repeat PrevButton d)
    = Some (currentPage - Z.of_nat d).
Proof.
  induction d as [|d IH]; intros cp H1 H2; simpl repeat; cbn [clicks].
  - f_equal. lia.
  - unfold canClick, click, prevPage.
    replace (totalPages >? 1) with true by lia.
    replace (cp =? 1) with false by lia.
    replace (cp >? 1) with true by lia.
    cbn [andb negb]. rewrite IH by lia. f_equal. lia.
Qed.

(** X17. From a page between 1 and the number of pages, no sequence of
    clicks on the buttons of the pagination bar leads to a page outside
    that range, and every page of the range can be reached with the
    previous and next buttons. *)
Theorem pagination_bar_stays_within_pages (totalPages currentPage : Z) :
  1 <= currentPage <= totalPages ->
  (forall bs page,
      clicks totalPages currentPage bs = Some page -> 1 <= page <= totalPages) /\
  (forall page,
      1 <= page <= totalPages ->
      exists bs, clicks totalPages currentPage bs = Some page).
Proof.
  intros Hc. split.
  - intros bs. revert currentPage Hc.
    induction bs as [|b bs IH]; intros cp Hc page; cbn [clicks].
    + intros [= <-]. exact Hc.
    + destruct (canClick totalPages cp b) eqn:Hb; [|discriminate].
      apply IH. now apply click_within.
  - intros page Hp.
    destruct (Z_le_gt_dec currentPage page) as [Hle|Hgt].
    + exists (repeat NextButton (Z.to_nat (page - currentPage))).
      rewrite clicks_next by lia. f_equal. lia.
    + exists (repeat PrevButton (Z.to_nat (currentPage - page))).
      rewrite clicks_prev by lia. f_equal. lia.
Qed.

Lemma pagination_bar_stays_within_pages_witness :
  1 <= 2 <= 9 /\
  clicks 9 2 [NextButton; PageButton 5; LastPageButton; PrevButton] = Some 8 /\
  1 <= 8 <= 9.
Proof.
  assert (H : 1 <= 2 <= 9) by lia.
  assert (Hr : clicks 9 2 [NextButton; PageButton 5; LastPageButton; PrevButton]
               = Some 8) by reflexivity.
  split; [exact H|]. split; [exact Hr|].
  exact (proj1 (pagination_bar_stays_within_pages 9 2 H) _ 8 Hr).
Defined.

(** * The price range filter *)








Lemma inPriceRange_spec (minPrice maxPrice : Z) (product : Product.t) :
  inPriceRange minPrice maxPrice product = true <->
  exists t, In t (Product.prices product) /\ PriceInfo.available t = true /\
            minPrice <= PriceInfo.price t <= maxPrice.
Proof.
  unfold inPriceRange. rewrite existsb_exists. split.
  - intros (t & Hin & Ht). apply andb_prop in Ht as [Ht Hmax].
    apply andb_prop in Ht as [Hav Hmin]. exists t. repeat split; auto; lia.
  - intros (t & Hin & Hav & Hr). exists t. split; [assumption|].
    rewrite Hav. simpl. apply andb_true_intro. split; lia.
Qed.

Lemma inPriceRange_wider (a b a' b' : Z) (product : Product.t) :
  a' <= a -> b <= b' ->
  inPriceRange a b product = true -> inPriceRange a' b' product = true.
Proof.
  intros Ha Hb. rewrite !inPriceRange_spec.
  intros (t & Hin & Hav & Hr). exists t. repeat split; auto; lia.
Qed.

Lemma filter_filter {A} (f g : A -> bool) (l : list A) :
  List.filter g (List.filter f l) = List.filter (fun x => f x && g x) l.
Proof.
  induction l as [|x l IH]; simpl; [reflexivity|].
  destruct (f x); simpl; [destruct (g x)|]; now rewrite IH.
Qed.

(** X19. The price filter only narrows the list it is applied to: what it
    keeps are products of that list, in order, each with an available
    price within the range (a product with no available price is dropped
    whatever the range). Applied again with another range it keeps the
    products that pass both, so a wider range after a narrower one brings
    no product back. *)
Theorem price_filter_only_narrows
  (minPrice maxPrice minPrice' maxPrice' : Z) (prevFiltered : list Product.t) :
  sublist (applyPriceFilter minPrice maxPrice prevFiltered) prevFiltered /\
  (forall product,
      In product (applyPriceFilter minPrice maxPrice prevFiltered) <->
      In product prevFiltered /\
      exists t, In t (Product.prices product) /\ PriceInfo.available t = true /\
                minPrice <= PriceInfo.price t <= maxPrice) /\
  applyPriceFilter minPrice' maxPrice'
    (applyPriceFilter minPrice maxPrice prevFiltered)
  = List.filter (fun product => inPriceRange minPrice maxPrice product &&
                                inPriceRange minPrice' maxPrice' product)
                prevFiltered /\
  (minPrice' <= minPrice -> maxPrice <= maxPrice' ->
   applyPriceFilter minPrice' maxPrice'
     (applyPriceFilter minPrice maxPrice prevFiltered)
   = applyPriceFilter minPrice maxPrice prevFiltered).
Proof.
  unfold applyPriceFilter. split; [|split; [|split]].
  - apply filter_sublist.
  - intros product. now rewrite filter_In, inPriceRange_spec.
  - apply filter_filter.
  - intros Ha Hb. rewrite filter_filter. apply filter_ext. intros product.
    destruct (inPriceRange minPrice maxPrice product) eqn:Hin; [|reflexivity].
    now rewrite (inPriceRange_wider _ _ _ _ product Ha Hb Hin).
Qed.

Lemma price_filter_only_narrows_witness :
  let cheap := Product.mk "C"%string "cheap"%string
                 [PriceInfo.mk "X"%string 5 true] in
  applyPriceFilter 0 1000 (applyPriceFilter 8 20 [cheap; productA]) = [productA] /\
  applyPriceFilter 0 1000 [cheap; productA] = [cheap; productA].
Proof.
  intros cheap.
  destruct (price_filter_only_narrows 8 20 0 1000 [cheap; productA])
    as (_ & _ & _ & Hwide).
  split; [|reflexivity].
  exact (eq_trans (Hwide ltac:(lia) ltac:(lia)) eq_refl).
Defined.

(** * Sorting the products by price *)

Lemma mathMin_spec (l : list Z) :
  match mathMin l with
  | Some m => In m l /\ Forall (fun x => m <= x) l
  | None => l = []
  end.
Proof.
  induction l as [|x l IH]; simpl; [reflexivity|].
  destruct (mathMin l) as [m|].
  - destruct IH as [Hin Hall]. split.
    + destruct (Z.min_spec x m) as [[_ ->]|[_ ->]]; auto.
    + constructor; [lia|].
      eapply List.Forall_impl; [|exact Hall]. intros y Hy. simpl in Hy. lia.
  - subst l. split; [now left|]. repeat constructor. lia.
Qed.

Lemma lowestAvailablePrice_spec (a : Product.t) :
  match lowestAvailablePrice a with
  | Some m =>
      (exists t, In t (Product.prices a) /\ PriceInfo.available t = true /\
                 PriceInfo.price t = m) /\
      forall t, In t (Product.prices a) -> PriceInfo.available t = true ->
                m <= PriceInfo.price t
  | None =>
      forall t, In t (Product.prices a) -> PriceInfo.available t = false
  end.
Proof.
  unfold lowestAvailablePrice.
  pose proof (mathMin_spec
                (map PriceInfo.price
                     (List.filter PriceInfo.available (Product.prices a)))) as H.
  destruct (mathMin _) as [m|].
  - destruct H as [Hin Hall]. split.
    + apply in_map_iff in Hin as (t & Hp & Ht). apply filter_In in Ht as [Ht Hav].
      eauto.
    + intros t Ht Hav. rewrite List.Forall_forall in Hall. apply Hall.
      apply in_map. apply filter_In. auto.
  - intros t Ht. destruct (PriceInfo.available t) eqn:Hav; [|reflexivity].
    apply map_eq_nil in H.
    assert (Hin : In t (List.filter PriceInfo.available (Product.prices a)))
      by (apply filter_In; auto).
    rewrite H in Hin. contradiction.
Qed.

Lemma minusForSort_le (x y : option Z) : minusForSort x y <= 0 <-> priceLe x y.
Proof. destruct x, y; simpl; lia. Qed.

Lemma minusForSort_total (x y : option Z) :
  0 < minusForSort x y -> minusForSort y x <= 0.
Proof. destruct x, y; simpl; lia. Qed.

Lemma minusForSort_trans (x y z : option Z) :
  minusForSort x y <= 0 -> minusForSort y z <= 0 -> minusForSort x z <= 0.
Proof. destruct x, y, z; simpl; lia. Qed.

Lemma StronglySorted_impl {A} (R R' : A -> A -> Prop) (l : list A) :
  (forall a b, R a b -> R' a b) -> StronglySorted R l -> StronglySorted R' l.
Proof.
  intros HR. induction 1 as [|x l Hs IH Hx]; constructor; [assumption|].
  eapply List.Forall_impl; [|exact Hx]. auto.
Qed.

(** X20. Sorting by "Price (Low to High)" rearranges the products, none
    lost or repeated, in ascending order of their lowest available price,
    the products with no available price last; products with the same
    lowest price keep their order. The lowest available price of a product
    is the price of one of its available tuples, at most the price of each
    of them. *)
Theorem price_low_sorts_by_lowest_available_price
  (filteredProducts : list Product.t) :
  Permutation (sortPriceLow filteredProducts) filteredProducts /\
  StronglySorted
    (fun a b => priceLe (lowestAvailablePrice a) (lowestAvailablePrice b))
    (sortPriceLow filteredProducts) /\
  (forall x,
      List.filter (tied comparePriceLow x) (sortPriceLow filteredProducts)
      = List.filter (tied comparePriceLow x) filteredProducts) /\
  (forall a,
      match lowestAvailablePrice a with
      | Some m =>
          (exists t, In t (Product.prices a) /\ PriceInfo.available t = true /\
                     PriceInfo.price t = m) /\
          forall t, In t (Product.prices a) -> PriceInfo.available t = true ->
                    m <= PriceInfo.price t
      | None =>
          forall t, In t (Product.prices a) -> PriceInfo.available t = false
      end).
Proof.
  unfold sortPriceLow. split; [|split; [|split]].
  - apply arraySort_perm.
  - eapply StronglySorted_impl; [|apply arraySort_sorted].
    + intros a b. apply minusForSort_le.
    + intros a b. apply minusForSort_total.
    + intros a b c. apply minusForSort_trans.
  - intros x. apply arraySort_filter. intros a b. apply tied_le.
    intros a' b' c'. apply minusForSort_trans.
  - apply lowestAvailablePrice_spec.
Qed.

(** X21. Sorting by "Price (High to Low)" also goes by the lowest
    available price of each product, in descending order: the products
    with no available price come first, then the others from the highest
    lowest price down; none is lost or repeated, and products with the
    same lowest price keep their order. *)
Theorem price_high_sorts_by_lowest_available_price_descending
  (filteredProducts : list Product.t) :
  Permutation (sortPriceHigh filteredProducts) filteredProducts /\
  StronglySorted
    (fun a b => priceLe (lowestAvailablePrice b) (lowestAvailablePrice a))
    (sortPriceHigh filteredProducts) /\
  (forall x,
      List.filter (tied comparePriceHigh x) (sortPriceHigh filteredProducts)
      = List.filter (tied comparePriceHigh x) filteredProducts).
Proof.
  unfold sortPriceHigh. split; [|split].
  - apply arraySort_perm.
  - eapply StronglySorted_impl; [|apply arraySort_sorted].
    + intros a b. apply minusForSort_le.
    + intros a b. apply minusForSort_total.
    + intros a b c H1 H2. exact (minusForSort_trans _ _ _ H2 H1).
  - intros x. apply arraySort_filter. intros a b. apply tied_le.
    intros a' b' c' H1 H2. exact (minusForSort_trans _ _ _ H2 H1).
Qed.

Example price_sorts :
  let none := Product.mk "N"%string "none"%string
                [PriceInfo.mk "X"%string 1 false] in
  let five := Product.mk "F"%string "five"%string
                [PriceInfo.mk "X"%string 9 true; PriceInfo.mk "Y"%string 5 true] in
  map Product.id (sortPriceLow [none; productA; five])
  = ["F"%string; "A"%string; "N"%string] /\
  map Product.id (sortPriceHigh [five; productA; none])
  = ["N"%string; "A"%string; "F"%string].
Proof. split; reflexivity. Qed.
